(** * minio_monitor: storage report pipeline and metrics viewer

    A shallow embedding of [main.py] (the batch report), [app.py] (the
    metrics viewer) and [manual_test/quota.py] (the stand-alone quota
    check), with the properties of the aggregation, the snapshot format,
    the quota evaluation and the viewer queries.

    Conventions.
    - A Python [str] is a [string]: the sequence of bytes of its UTF-8
      encoding.  Byte-wise lexicographic order is code-point order, and the
      characters the code inspects (slash, comma, double quote, CR, LF) are
      ASCII, so they never occur inside a multi-byte sequence.
    - A Python [int] is a [Z].
    - A Python [float] is the exact rational value of a finite binary64
      number, see [PyFloat]. *)

From Stdlib Require Import ZArith QArith Ascii String List Lia.
From stdpp Require Import gmap strings list fin_maps sorting pretty.

Local Open Scope Z_scope.

(* ================================================================== *)
(** * Python strings *)

Module PyStr.

(** [s.split(sep)] for a one-character separator: never empty. *)
Fixpoint split (sep : ascii) (s : string) : list string :=
  match s with
  | EmptyString => [EmptyString]
  | String c s' =>
      if Ascii.eqb c sep then EmptyString :: split sep s'
      else match split sep s' with
           | [] => [String c EmptyString]
           | w :: ws => String c w :: ws
           end
  end.

(** [c in s] for a one-character [c]. *)
Fixpoint contains (c : ascii) (s : string) : bool :=
  match s with
  | EmptyString => false
  | String d s' => Ascii.eqb d c || contains c s'
  end.

(** [s.startswith(p)]. *)
Definition startswith (p s : string) : bool := String.prefix p s.

(** [s.endswith(suf)]: some tail of [s] is [suf]. *)
Fixpoint endswith (suf s : string) : bool :=
  String.eqb s suf ||
  match s with
  | EmptyString => false
  | String _ s' => endswith suf s'
  end.

(** [str(n)] for an int. *)
Definition str_int (n : Z) : string := pretty n.

End PyStr.

(* ================================================================== *)
(** * Python sorting *)

(** [sorted] is stable and compares with [<] only.  On a comparison that
    is a strict weak order the result of a stable sort is unique, so the
    insertion sort below stands for it. *)
Module PySort.
Section sorted.
Context {A : Type} (lt : A -> A -> bool).

(** [x] goes behind every element that is not greater: ties keep
    their order of arrival. *)
Fixpoint insert (x : A) (l : list A) : list A :=
  match l with
  | [] => [x]
  | y :: l' => if lt x y then x :: l else y :: insert x l'
  end.

(** [sorted(l)] with [lt] as the elements' [<]. *)
Definition sorted (l : list A) : list A :=
  foldl (fun acc x => insert x acc) [] l.
End sorted.

(** [sorted(l, key=key)]. *)
Definition sorted_key {A K : Type} (lt : K -> K -> bool) (key : A -> K)
    (l : list A) : list A :=
  sorted (fun a b => lt (key a) (key b)) l.

(** [sorted(l, key=key, reverse=True)]: descending, ties still in their
    original order. *)
Definition sorted_key_reverse {A K : Type} (lt : K -> K -> bool) (key : A -> K)
    (l : list A) : list A :=
  sorted (fun a b => lt (key b) (key a)) l.

(** [l[:n]] for an int [n]. *)
Definition slice_to {A : Type} (n : Z) (l : list A) : list A :=
  if 0 <=? n then take (Z.to_nat n) l
  else take (length l - Z.to_nat (- n)) l.
End PySort.

(* ================================================================== *)
(** * Python floats *)

(** A finite binary64 number is a dyadic rational: the model carries its
    exact value as a [Q] whose denominator is a power of two, and rounds
    where the Python operation rounds.  Infinities and NaN do not arise:
    the sources only divide ints by [1024 ** 2] and [1024 ** 3], subtract
    the int quota, compare and print.  An int too large for the binary64
    range makes Python raise [OverflowError]; object sizes are far below
    [2 ^ 1024] and the model does not represent that exception. *)
Module PyFloat.

Definition pyfloat : Type := Q.

(** The nearest integer with at most 53 significant bits, ties to the
    even mantissa: the binary64 rounding of an integer numerator. *)
Definition round53 (n : Z) : Z :=
  let a := Z.abs n in
  let s := Z.log2 a - 52 in
  if s <=? 0 then n
  else
    let q := a / 2 ^ s in
    let r := a mod 2 ^ s in
    let half := 2 ^ (s - 1) in
    let q' := if (half <? r) || ((r =? half) && Z.odd q) then q + 1 else q in
    Z.sgn n * (q' * 2 ^ s).

(** [a / b] on ints (true division) for [b] a power of two: the quotient
    correctly rounded to binary64. *)
Definition truediv (a : Z) (b : positive) : pyfloat := round53 a # b.

(** [x - n] for a float [x] and an int [n] exactly representable. *)
Definition sub_int (x : pyfloat) (n : Z) : pyfloat :=
  round53 (Qnum x - n * Zpos (Qden x)) # Qden x.

(** [x >= n], [x > n] for a float and an int, and [x < y] on floats:
    comparisons are exact. *)
Definition ge_int (x : pyfloat) (n : Z) : bool := Qle_bool (inject_Z n) x.
Definition gt_int (x : pyfloat) (n : Z) : bool := negb (Qle_bool x (inject_Z n)).
Definition ltb (x y : pyfloat) : bool := negb (Qle_bool y x).

(** Round a non-negative ratio [p / q] to the nearest integer, ties to
    even. *)
Definition round_half_even (p : Z) (q : positive) : Z :=
  let d := p / Zpos q in
  let r := p mod Zpos q in
  if 2 * r <? Zpos q then d
  else if Zpos q <? 2 * r then d + 1
  else if Z.even d then d else d + 1.

(** Two decimal digits, zero padded. *)
Definition two_digits (n : Z) : string :=
  if n <? 10 then "0" +:+ pretty n else pretty n.

(** The numeral with two decimals of [h] hundredths, [h >= 0]. *)
Definition decimal2 (h : Z) : string :=
  pretty (h / 100) +:+ "." +:+ two_digits (h mod 100).

(** [format(x, '.2f')]: the exact value correctly rounded to two
    decimals, ties to even; the sign is the float's sign. *)
Definition fmt_2f (x : pyfloat) : string :=
  let h := round_half_even (100 * Z.abs (Qnum x)) (Qden x) in
  (if Qnum x <? 0 then "-" else "") +:+ decimal2 h.

(** ** [repr] *)

(** Number of decimal digits of [n > 0]. *)
Definition ndigits (n : Z) : Z := Z.of_nat (String.length (pretty n)).

(** The least [k <= fuel] with [d <= n * 10 ^ k]. *)
Fixpoint scale_up (fuel : nat) (n d : Z) : Z :=
  match fuel with
  | O => 0
  | S fuel' => if d <=? n then 0 else 1 + scale_up fuel' (10 * n) d
  end.

(** [floor (log10 (n / d))] for [n, d > 0]. *)
Definition floor_log10 (n d : Z) : Z :=
  if d <=? n then ndigits (n / d) - 1 else - scale_up 400 n d.

(** [floor (log2 (n / d))] for [n, d > 0]. *)
Definition floor_log2 (n d : Z) : Z :=
  let l := Z.log2 n - Z.log2 d in
  if (if 0 <=? l then d * 2 ^ l <=? n else d <=? n * 2 ^ (- l)) then l else l - 1.

(** [n / d * 2 ^ k] and [n / d * 10 ^ k] as fractions, for any int [k]. *)
Definition scale (b : Z) (nd : Z * Z) (k : Z) : Z * Z :=
  if 0 <=? k then (fst nd * b ^ k, snd nd) else (fst nd, snd nd * b ^ (- k)).

(** The interval of the reals that round to the binary64 number
    [n / d > 0]: its bounds as fractions over a common denominator, and
    whether the bounds belong to it (the mantissa is even). *)
Definition rounding_interval (n d : Z) : (Z * Z * Z) * bool :=
  let e := Z.max (floor_log2 n d) (-1022) in
  (* one quarter of the unit in the last place is 2^(e-54) *)
  let '(qn, qd) := scale 2 (1, 1) (e - 54) in
  let '(mn, md) := scale 2 (n, d) (52 - e) in
  let mant := mn / md in
  let below := if (mant =? 2 ^ 52) && (-1022 <? e) then 1 else 2 in
  ((n * qd - below * qn * d, n * qd + 2 * qn * d, d * qd), Z.even mant).

Definition in_interval (iv : (Z * Z * Z) * bool) (cn cd : Z) : bool :=
  let '(lo, hi, den, closed) := iv in
  if closed then (lo * cd <=? cn * den) && (cn * den <=? hi * cd)
  else (lo * cd <? cn * den) && (cn * den <? hi * cd).

(** The candidate with [k] significant digits: the digits as an int and
    the power of ten of its last digit, when one of the two neighbours
    of [n / d] with [k] digits rounds back to it; the nearer one is
    taken. *)
Definition candidate (n d : Z) (k : Z) : option (Z * Z) :=
  let p := floor_log10 n d - (k - 1) in
  let '(sn, sd) := scale 10 (n, d) (- p) in
  let lo := sn / sd in
  let hi := lo + 1 in
  let iv := rounding_interval n d in
  let ok c := let '(cn, cd) := scale 10 (c, 1) p in in_interval iv cn cd in
  (* the distance to [lo] is [sn - lo * sd], to [hi] it is [hi * sd - sn];
     half way between the two, the even last digit wins *)
  let lo_nearer :=
    (sn - lo * sd <? hi * sd - sn) ||
    ((sn - lo * sd =? hi * sd - sn) && Z.even lo) in
  match ok lo, ok hi with
  | true, true => Some (if lo_nearer then lo else hi, p)
  | true, false => Some (lo, p)
  | false, true => Some (hi, p)
  | false, false => None
  end.

Fixpoint shortest (fuel : nat) (n d : Z) (k : Z) : Z * Z :=
  match fuel with
  | O => (0, 0)
  | S fuel' =>
      match candidate n d k with
      | Some c => c
      | None => shortest fuel' n d (k + 1)
      end
  end.

(** Drop the trailing zeros of the digits. *)
Fixpoint strip_zeros (fuel : nat) (c p : Z) : Z * Z :=
  match fuel with
  | O => (c, p)
  | S fuel' => if c mod 10 =? 0 then strip_zeros fuel' (c / 10) (p + 1) else (c, p)
  end.

Fixpoint zeros (n : nat) : string :=
  match n with O => "" | S n' => String "0" (zeros n') end.

(** The digits [ds] with the decimal point after [decpt] of them, as
    [float_repr_style] lays them out. *)
Definition layout (ds : string) (decpt : Z) : string :=
  let nd := Z.of_nat (String.length ds) in
  if (decpt <=? -4) || (16 <? decpt) then
    let e := decpt - 1 in
    let mant :=
      match ds with
      | String c "" => String c ""
      | String c rest => String c ("." +:+ rest)
      | EmptyString => ""
      end in
    mant +:+ "e" +:+ (if e <? 0 then "-" else "+")
         +:+ (if Z.abs e <? 10 then "0" else "") +:+ pretty (Z.abs e)
  else if decpt <=? 0 then "0." +:+ zeros (Z.to_nat (- decpt)) +:+ ds
  else if nd <=? decpt then ds +:+ zeros (Z.to_nat (decpt - nd)) +:+ ".0"
  else String.substring 0 (Z.to_nat decpt) ds +:+ "." +:+
       String.substring (Z.to_nat decpt) (Z.to_nat (nd - decpt)) ds.

(** [repr(x)], which is [str(x)]: the shortest decimal numeral that
    rounds to [x]. *)
Definition float_repr (x : pyfloat) : string :=
  let n := Z.abs (Qnum x) in
  let d := Zpos (Qden x) in
  if n =? 0 then "0.0"
  else
    let '(c0, p0) := shortest 17 n d 1 in
    let '(c, p) := strip_zeros 17 c0 p0 in
    (if Qnum x <? 0 then "-" else "") +:+ layout (pretty c) (ndigits c + p).

End PyFloat.

(* ================================================================== *)
(** * The csv module, excel dialect *)

(** [csv.writer], [csv.reader] and [csv.DictReader] with the defaults the
    sources use: delimiter comma, quote character double quote,
    [doublequote], no escape character, line terminator CR LF,
    [QUOTE_MINIMAL], not strict. *)
Module Csv.

Definition delimiter : ascii := ",".
Definition quotechar : ascii := "034".
Definition CR : ascii := "013".
Definition LF : ascii := "010".
Definition lineterminator : string := String CR (String LF "").

(** ** Writer *)

(** A character that makes the writer quote the field. *)
Definition special (c : ascii) : bool :=
  Ascii.eqb c delimiter || Ascii.eqb c quotechar ||
  Ascii.eqb c CR || Ascii.eqb c LF.

Fixpoint needs_quotes (field : string) : bool :=
  match field with
  | EmptyString => false
  | String c s => special c || needs_quotes s
  end.

(** The field's characters, every quote character doubled. *)
Fixpoint doubled (field : string) : string :=
  match field with
  | EmptyString => EmptyString
  | String c s =>
      if Ascii.eqb c quotechar then String c (String c (doubled s))
      else String c (doubled s)
  end.

Definition write_field (field : string) : string :=
  if needs_quotes field
  then String quotechar (doubled field +:+ String quotechar "")
  else field.

Fixpoint join_fields (fields : list string) : string :=
  match fields with
  | [] => EmptyString
  | [f] => write_field f
  | f :: rest => write_field f +:+ String delimiter (join_fields rest)
  end.

(** [writer.writerow(fields)] on fields already converted with [str]:
    the text appended to the buffer.  A record that is one empty field
    is written as two quote characters. *)
Definition writerow (fields : list string) : string :=
  match fields with
  | [EmptyString] => String quotechar (String quotechar lineterminator)
  | _ => join_fields fields +:+ lineterminator
  end.

(** ** Reader *)

Inductive ParserState :=
| START_RECORD | START_FIELD | IN_FIELD
| IN_QUOTED_FIELD | QUOTE_IN_QUOTED_FIELD | EAT_CRNL.

Definition ParserState_eqb (a b : ParserState) : bool :=
  match a, b with
  | START_RECORD, START_RECORD | START_FIELD, START_FIELD
  | IN_FIELD, IN_FIELD | IN_QUOTED_FIELD, IN_QUOTED_FIELD
  | QUOTE_IN_QUOTED_FIELD, QUOTE_IN_QUOTED_FIELD | EAT_CRNL, EAT_CRNL => true
  | _, _ => false
  end.

(** The reader object: parser state, the fields saved for the current
    record, the characters of the current field. *)
Record Reader := MkReader {
  state : ParserState;
  fields : list string;
  field : string
}.

Definition field_limit : Z := 131072.

(** [parse_reset]. *)
Definition parse_reset : Reader := MkReader START_RECORD [] "".

(** [parse_add_char]: fails on a field larger than the field limit. *)
Definition parse_add_char (r : Reader) (c : ascii) : option Reader :=
  if field_limit <=? Z.of_nat (String.length (field r)) then None
  else Some (MkReader (state r) (fields r) (field r +:+ String c "")).

(** [parse_save_field]. *)
Definition parse_save_field (r : Reader) : Reader :=
  MkReader (state r) (fields r ++ [field r]) "".

Definition set_state (st : ParserState) (r : Reader) : Reader :=
  MkReader st (fields r) (field r).

Definition is_newline (c : ascii) : bool := Ascii.eqb c LF || Ascii.eqb c CR.

(** [parse_process_char]; [None] as the character is the end-of-line
    event the reader raises after each line; the result [None] is
    [csv.Error]. *)
Definition parse_process_char (r : Reader) (c : option ascii) : option Reader :=
  match state r, c with
  | START_RECORD, None => Some r
  | EAT_CRNL, None => Some (set_state START_RECORD r)
  | (START_FIELD | IN_FIELD | QUOTE_IN_QUOTED_FIELD), None =>
      Some (set_state START_RECORD (parse_save_field r))
  | IN_QUOTED_FIELD, None => Some r
  | (START_RECORD | START_FIELD), Some c =>
      if (match state r with START_RECORD => is_newline c | _ => false end)
      then Some (set_state EAT_CRNL r)
      else if is_newline c then Some (set_state EAT_CRNL (parse_save_field r))
      else if Ascii.eqb c quotechar then Some (set_state IN_QUOTED_FIELD r)
      else if Ascii.eqb c delimiter
           then Some (set_state START_FIELD (parse_save_field r))
      else parse_add_char (set_state IN_FIELD r) c
  | IN_FIELD, Some c =>
      if is_newline c then Some (set_state EAT_CRNL (parse_save_field r))
      else if Ascii.eqb c delimiter
           then Some (set_state START_FIELD (parse_save_field r))
      else parse_add_char r c
  | IN_QUOTED_FIELD, Some c =>
      if Ascii.eqb c quotechar then Some (set_state QUOTE_IN_QUOTED_FIELD r)
      else parse_add_char r c
  | QUOTE_IN_QUOTED_FIELD, Some c =>
      if Ascii.eqb c quotechar then parse_add_char (set_state IN_QUOTED_FIELD r) c
      else if Ascii.eqb c delimiter
           then Some (set_state START_FIELD (parse_save_field r))
      else if is_newline c then Some (set_state EAT_CRNL (parse_save_field r))
      else parse_add_char (set_state IN_FIELD r) c
  | EAT_CRNL, Some c =>
      if is_newline c then Some r else None
  end.

(** The end of a line: the end-of-line event, and the record is
    returned when the parser is back at [START_RECORD]. *)
Definition end_of_line (r : Reader) (rows : list (list string))
    : option (Reader * list (list string)) :=
  match parse_process_char r None with
  | None => None
  | Some r' =>
      match state r' with
      | START_RECORD => Some (parse_reset, rows ++ [fields r'])
      | _ => Some (r', rows)
      end
  end.

(** The input exhausted inside a record: the record read so far is
    returned (the reader is not strict). *)
Definition end_of_input (r : Reader) (rows : list (list string))
    : list (list string) :=
  if negb (String.eqb (field r) "") || ParserState_eqb (state r) IN_QUOTED_FIELD
  then rows ++ [fields (parse_save_field r)]
  else rows.

(** [list(csv.reader(io.StringIO(text)))]: the text is read line by line,
    a line ending with its LF; [partial] says that characters of an
    unfinished line have been read. *)
Fixpoint read (text : string) (r : Reader) (rows : list (list string))
    (partial : bool) : option (list (list string)) :=
  match text with
  | EmptyString =>
      if partial
      then match end_of_line r rows with
           | None => None
           | Some (r', rows') => Some (end_of_input r' rows')
           end
      else Some (end_of_input r rows)
  | String c text' =>
      match parse_process_char r (Some c) with
      | None => None
      | Some r' =>
          if Ascii.eqb c LF
          then match end_of_line r' rows with
               | None => None
               | Some (r'', rows') => read text' r'' rows' false
               end
          else read text' r' rows true
      end
  end.

Definition reader (text : string) : option (list (list string)) :=
  read text parse_reset [] false.

(** ** DictReader *)

(** A value of a row dict: a field, [restval] (None) for a missing
    field, or the list of surplus fields under [restkey]. *)
Inductive value :=
| VStr (s : string)
| VNone
| VList (l : list string).

(** A dict in insertion order; the key [None] is [restkey]. *)
Definition dict : Type := list (option string * value).

Definition key_eqb (a b : option string) : bool :=
  match a, b with
  | Some x, Some y => String.eqb x y
  | None, None => true
  | _, _ => false
  end.

(** [d[k] = v]. *)
Fixpoint dict_set (d : dict) (k : option string) (v : value) : dict :=
  match d with
  | [] => [(k, v)]
  | (k', v') :: d' =>
      if key_eqb k' k then (k', v) :: d' else (k', v') :: dict_set d' k v
  end.

(** [dict(zip(fieldnames, row))]. *)
Fixpoint dict_zip (d : dict) (fieldnames row : list string) : dict :=
  match fieldnames, row with
  | k :: ks, v :: vs => dict_zip (dict_set d (Some k) (VStr v)) ks vs
  | _, _ => d
  end.

(** [DictReader.__next__] on a row that is not blank. *)
Definition make_dict (fieldnames row : list string) : dict :=
  let d := dict_zip [] fieldnames row in
  let lf := length fieldnames in
  let lr := length row in
  if (lf <? lr)%nat then dict_set d None (VList (drop lf row))
  else foldl (fun d key => dict_set d (Some key) VNone) d (drop lr fieldnames).

Definition is_blank (row : list string) : bool :=
  match row with [] => true | _ => false end.

(** [list(csv.DictReader(io.StringIO(text)))]: the first record is the
    field names, blank records after it are skipped. *)
Definition DictReader (text : string) : option (list dict) :=
  match reader text with
  | None => None
  | Some [] => Some []
  | Some (fieldnames :: rows) =>
      Some (make_dict fieldnames <$> filter (fun row => is_blank row = false) rows)
  end.

End Csv.

(* ================================================================== *)
(** * Exceptions *)

Module Py.

(** The exceptions the modelled calls raise; all derive from
    [Exception]. *)
Inductive exn :=
| S3Error (code : string)
| UnicodeDecodeError
| CsvError
| AttributeError
| ValueError
| KeyError
| TypeError
| OSError
| SlackApiError (error : string).

(** A computation that returns or raises. *)
Inductive result (A : Type) :=
| Ok (a : A)
| Raise (e : exn).
Arguments Ok {A} a.
Arguments Raise {A} e.

Definition bind {A B : Type} (m : result A) (f : A -> result B) : result B :=
  match m with
  | Ok a => f a
  | Raise e => Raise e
  end.

Fixpoint mapM {A B : Type} (f : A -> result B) (l : list A) : result (list B) :=
  match l with
  | [] => Ok []
  | x :: l' =>
      bind (f x) (fun y => bind (mapM f l') (fun ys => Ok (y :: ys)))
  end.

End Py.

(** The monad notation [x ← m; k] of stdpp on [Py.result]. *)
Global Instance result_ret : MRet Py.result := @Py.Ok.
Global Instance result_bind : MBind Py.result := fun A B f m => Py.bind m f.

(* ================================================================== *)
(** * UTF-8 *)

(** [bytes.decode('utf-8')]: the well-formed byte sequences of the
    Unicode standard (no overlong form, no surrogate, nothing above
    U+10FFFF), recognised byte by byte. *)
Module Utf8.

Inductive dstate :=
| Start          (* at a character boundary *)
| Cont1 | Cont2 | Cont3   (* that many continuation bytes to come *)
| AfterE0 | AfterED | AfterF0 | AfterF4.

Definition between (lo b hi : N) : bool := ((lo <=? b) && (b <=? hi))%N.

Definition step (st : dstate) (c : ascii) : option dstate :=
  let b := N_of_ascii c in
  match st with
  | Start =>
      if (b <? 128)%N then Some Start
      else if between 194 b 223 then Some Cont1
      else if (b =? 224)%N then Some AfterE0
      else if between 225 b 236 || between 238 b 239 then Some Cont2
      else if (b =? 237)%N then Some AfterED
      else if (b =? 240)%N then Some AfterF0
      else if between 241 b 243 then Some Cont3
      else if (b =? 244)%N then Some AfterF4
      else None
  | Cont1 => if between 128 b 191 then Some Start else None
  | Cont2 => if between 128 b 191 then Some Cont1 else None
  | Cont3 => if between 128 b 191 then Some Cont2 else None
  | AfterE0 => if between 160 b 191 then Some Cont1 else None
  | AfterED => if between 128 b 159 then Some Cont1 else None
  | AfterF0 => if between 144 b 191 then Some Cont2 else None
  | AfterF4 => if between 128 b 143 then Some Cont2 else None
  end.

Fixpoint run (st : dstate) (bytes : string) : option dstate :=
  match bytes with
  | EmptyString => Some st
  | String c rest =>
      match step st c with
      | Some st' => run st' rest
      | None => None
      end
  end.

Definition valid (bytes : string) : bool :=
  match run Start bytes with
  | Some Start => true
  | _ => false
  end.

(** [data.decode('utf-8')]. *)
Definition decode (data : string) : Py.result string :=
  if valid data then Py.Ok data else Py.Raise Py.UnicodeDecodeError.

(** [text.encode('utf-8')]. *)
Definition encode (text : string) : string := text.

End Utf8.

(* ================================================================== *)
(** * The storage backend as the scripts see it *)

Module Minio.

(** [datetime] of an object's last modification, in UTC. *)
Record datetime := Datetime {
  year : Z; month : Z; day : Z;
  hour : Z; minute : Z; second : Z; microsecond : Z
}.

(** An entry of [list_objects(..., recursive=True)]. *)
Record object := Object {
  object_name : string;
  size : Z;
  last_modified : datetime
}.

(** The fields of a datetime are within their ranges. *)
Definition valid_datetime (d : datetime) : Prop :=
  (1 <= year d <= 9999) ∧ (1 <= month d <= 12) ∧ (1 <= day d <= 31) ∧
  (0 <= hour d <= 23) ∧ (0 <= minute d <= 59) ∧ (0 <= second d <= 59) ∧
  (0 <= microsecond d <= 999999).

(** [<] on aware datetimes in UTC. *)
Definition datetime_key (d : datetime) : list Z :=
  [year d; month d; day d; hour d; minute d; second d; microsecond d].

Fixpoint list_ltb (a b : list Z) : bool :=
  match a, b with
  | x :: a', y :: b' => (x <? y) || ((x =? y) && list_ltb a' b')
  | [], _ :: _ => true
  | _, _ => false
  end.

Definition datetime_ltb (a b : datetime) : bool :=
  list_ltb (datetime_key a) (datetime_key b).

Definition digit (n : Z) : ascii := ascii_of_N (48 + Z.to_N n).

(** ["%0wd" % n] for [0 <= n < 10 ^ w]: the [w] decimal digits of [n]. *)
Fixpoint pad (w : nat) (n : Z) : string :=
  match w with
  | O => EmptyString
  | S w' => pad w' (n / 10) +:+ String (digit (n mod 10)) ""
  end.

(** [d.isoformat()] for an aware datetime in UTC. *)
Definition isoformat (d : datetime) : string :=
  pad 4 (year d) +:+ "-" +:+ pad 2 (month d) +:+ "-" +:+ pad 2 (day d) +:+ "T" +:+
  pad 2 (hour d) +:+ ":" +:+ pad 2 (minute d) +:+ ":" +:+ pad 2 (second d) +:+
  (if microsecond d =? 0 then "" else "." +:+ pad 6 (microsecond d)) +:+
  "+00:00".

(** A stored object of the bucket: its key, its bytes, its time of
    last modification. *)
Record blob := Blob {
  blob_name : string;
  data : string;
  modified : datetime
}.

(** The content of the [cdm-lake] bucket, in listing order. *)
Definition store : Type := list blob.

(** An entry of [list_objects(bucket, prefix=...)], not recursive: an
    object, or a common prefix (a "directory"), which has neither size
    nor time. *)
Record entry := Entry {
  e_object_name : string;
  e_size : option Z;
  e_last_modified : option datetime
}.

Definition entry_of_blob (b : blob) : entry :=
  Entry (blob_name b) (Some (Z.of_nat (String.length (data b)))) (Some (modified b)).

(** [s[n:]]. *)
Fixpoint drop_chars (n : nat) (s : string) : string :=
  match n, s with
  | S n', String _ s' => drop_chars n' s'
  | _, _ => s
  end.

(** The characters up to and including the first slash. *)
Fixpoint through_slash (s : string) : string :=
  match s with
  | EmptyString => EmptyString
  | String c s' =>
      if Ascii.eqb c "/" then String c "" else String c (through_slash s')
  end.

Fixpoint dedup_strings (seen : list string) (l : list string) : list string :=
  match l with
  | [] => []
  | x :: l' =>
      if existsb (String.eqb x) seen then dedup_strings seen l'
      else x :: dedup_strings (x :: seen) l'
  end.

(** [list_objects(bucket, prefix=prefix)] with the slash delimiter: the
    objects right under the prefix, then the common prefixes of the
    deeper ones. *)
Definition list_objects (st : store) (prefix : string) : list entry :=
  let under := filter (fun b => PyStr.startswith prefix (blob_name b) = true) st in
  let rest b := drop_chars (String.length prefix) (blob_name b) in
  let direct := filter (fun b => PyStr.contains "/" (rest b) = false) under in
  let deeper := filter (fun b => PyStr.contains "/" (rest b) = true) under in
  (entry_of_blob <$> direct) ++
  ((fun p => Entry p None None)
     <$> dedup_strings [] ((fun b => prefix +:+ through_slash (rest b)) <$> deeper)).

(** [get_object(bucket, name)] followed by [response.read()]. *)
Definition get_object (st : store) (name : string) : Py.result string :=
  match List.find (fun b => String.eqb (blob_name b) name) st with
  | Some b => Py.Ok (data b)
  | None => Py.Raise (Py.S3Error "NoSuchKey")
  end.

(** [put_object(bucket, name, data, ...)] at time [now]: the object is
    created or replaced as a whole. *)
Definition put_object (st : store) (name : string) (bytes : string)
    (now : datetime) : store :=
  filter (fun b => String.eqb (blob_name b) name = false) st ++ [Blob name bytes now].

End Minio.

(* ================================================================== *)
(** * main.py: aggregation *)

Module Main.
Import Minio PyFloat.

(** Lines 23-30. *)
Definition format_size (size_bytes : Z) : string :=
  let size_gb := truediv size_bytes (1024 ^ 3) in
  if ge_int size_gb 1 then fmt_2f size_gb +:+ " GB"
  else
    let size_mb := truediv size_bytes (1024 ^ 2) in
    fmt_2f size_mb +:+ " MB".

Definition bucket_name : string := "cdm-lake".

(** Lines 59-63 and 69-73: the aggregation key of an object name. *)
Definition two_level_path (name : string) : string :=
  let parts := PyStr.split "/" name in
  if (2 <=? length parts)%nat
  then (parts !!! 0%nat) +:+ "/" +:+ (parts !!! 1%nat)
  else parts !!! 0%nat.

(** Lines 57-64: first listing pass, the set of keys. *)
Definition two_level_paths (pass1 : list object) : gset string :=
  foldl (fun acc obj => {[ two_level_path (object_name obj) ]} ∪ acc) ∅ pass1.

(** Lines 75-76: one iteration of the second pass. *)
Definition add_size (acc : gmap string Z) (obj : object) : gmap string Z :=
  let k := two_level_path (object_name obj) in
  match acc !! k with
  | Some v => <[ k := v + size obj ]> acc
  | None => acc
  end.

(** Lines 67-76: the dict initialised to 0 on the keys of the first
    pass, then the second listing pass. *)
Definition path_sizes (pass1 pass2 : list object) : gmap string Z :=
  foldl add_size (gset_to_gmap 0 (two_level_paths pass1)) pass2.

(** The dicts of [bucket_data] (lines 46-50) and of [path_data]
    (lines 86-92). *)
Record bucket_entry := BucketEntry {
  b_path : string; b_size_bytes : Z; b_size_human : string
}.

Record row := Row {
  path : string; size_bytes : Z;
  size_mb : pyfloat; size_gb : pyfloat; size_human : string
}.

(** Lines 41-50: one entry per bucket of [list_buckets()], each with
    the sum over its recursive listing. *)
Definition bucket_data (buckets : list (string * list object)) : list bucket_entry :=
  (fun b =>
     let bucket_size := foldl (fun acc obj => acc + size obj) 0 (snd b) in
     BucketEntry (fst b) bucket_size (format_size bucket_size)) <$> buckets.

(** [<] on the [(path, size)] tuples of [path_sizes.items()]. *)
Definition item_lt (a b : string * Z) : bool :=
  if String.eqb (fst a) (fst b) then snd a <? snd b
  else String.ltb (fst a) (fst b).

(** Lines 85-92: the dict appended for one [(path, size)] item. *)
Definition path_row (item : string * Z) : row :=
  let size := snd item in
  let full_path := bucket_name +:+ "/" +:+ fst item in
  Row full_path size (truediv size (1024 ^ 2)) (truediv size (1024 ^ 3))
      (format_size size).

(** Lines 84-92. *)
Definition path_data (path_sizes : gmap string Z) : list row :=
  path_row <$> PySort.sorted item_lt (map_to_list path_sizes).

Definition fieldnames : list string :=
  ["path"; "size_bytes"; "size_mb"; "size_gb"; "size_human"].

(** Lines 104-110: the dict written for a bucket. *)
Definition bucket_row (bucket : bucket_entry) : row :=
  Row (b_path bucket) (b_size_bytes bucket)
      (truediv (b_size_bytes bucket) (1024 ^ 2))
      (truediv (b_size_bytes bucket) (1024 ^ 3))
      (b_size_human bucket).

(** Lines 103-114: the dicts handed to [writer.writerow], in order. *)
Definition written_rows (bucket_data : list bucket_entry) (path_data : list row)
    : list row :=
  (bucket_row <$> bucket_data) ++ path_data.

(** The fields of a written dict in the order of [fieldnames], each
    converted with [str] as the writer does. *)
Definition row_fields (r : row) : list string :=
  [path r; PyStr.str_int (size_bytes r); float_repr (size_mb r);
   float_repr (size_gb r); size_human r].

Fixpoint concat_strings (l : list string) : string :=
  match l with
  | [] => EmptyString
  | x :: l' => x +:+ concat_strings l'
  end.

(** Lines 96-114: the content of [csv_buffer]. *)
Definition csv_text (rows : list row) : string :=
  Csv.writerow fieldnames +:+ concat_strings (Csv.writerow ∘ row_fields <$> rows).

(** Lines 146-159: the quota check. *)
Definition QUOTA_GB : Z := 250.

Record violation := Violation {
  v_path : string; v_size_gb : pyfloat; v_size_human : string
}.

Definition over_quota (path_data : list row) : list violation :=
  omap (fun p =>
          if negb (PyStr.contains "/" (path p)) then None
          else if gt_int (size_gb p) QUOTA_GB
               then Some (Violation (path p) (size_gb p) (size_human p))
               else None) path_data.

(** Lines 168-169 and 186-187: the violations as they are reported,
    each with its overage. *)
Definition report (over_quota : list violation) : list (violation * pyfloat) :=
  (fun item => (item, sub_int (v_size_gb item) QUOTA_GB))
  <$> PySort.sorted_key_reverse ltb v_size_gb over_quota.


(** ** The run and its effects *)

(** What the backend answers during a run: the buckets with their
    recursive listings (lines 42-44), and the two listings of
    [cdm-lake] (lines 58 and 68), which may differ. *)
Record listings := Listings {
  buckets : list (string * list object);
  pass1 : list object;
  pass2 : list object
}.

(** The clock readings of a run. *)
Record clock := Clock {
  runtime_seconds : Z;
  datestamp : string;
  timestamp : string
}.

(** How the outside world answers the three writes: the exception the
    local [open]/[write] raises, the exception [put_object] raises, the
    error of the [SlackApiError] that [chat_postMessage] raises. *)
Record env := Env {
  local_write : option Py.exn;
  put : option Py.exn;
  slack : option string
}.

Inductive event :=
| WriteFile (name content : string)
| PutObject (bucket name data : string) (length : Z) (content_type : string)
| PostMessage (channel text : string)
| PrintSlackError (error : string).

(** A step of the script: it extends the trace of effects and returns
    or raises. *)
Definition script (A : Type) : Type := list event -> list event * Py.result A.

Definition perform (ev : event) (failure : option Py.exn) : script unit :=
  fun trace =>
    match failure with
    | None => (trace ++ [ev], Py.Ok tt)
    | Some e => (trace, Py.Raise e)
    end.

Definition seq {A B : Type} (m : script A) (k : A -> script B) : script B :=
  fun trace =>
    match m trace with
    | (trace', Py.Ok a) => k a trace'
    | (trace', Py.Raise e) => (trace', Py.Raise e)
    end.

(** [try: m except SlackApiError as e: print(...)]. *)
Definition except_slack (m : script unit) : script unit :=
  fun trace =>
    match m trace with
    | (trace', Py.Raise (Py.SlackApiError error)) =>
        (trace' ++ [PrintSlackError error], Py.Ok tt)
    | r => r
    end.

Definition nl : string := String Csv.LF "".

(** Lines 130: the name of the durable object. *)
Definition minio_path (c : clock) : string :=
  "metrics/" +:+ datestamp c +:+ "_" +:+ PyStr.str_int (runtime_seconds c) +:+ "s.csv".

(** Lines 181-192: the text of the notification. *)
Definition message (c : clock) (over_quota : list violation) : string :=
  "*MinIO Storage Report* - " +:+ timestamp c +:+ nl +:+
  "_Runtime: " +:+ PyStr.str_int (runtime_seconds c) +:+ " seconds_" +:+ nl +:+ nl +:+
  (match over_quota with
   | [] => ":white_check_mark: All directories are within the quota of "
             +:+ PyStr.str_int QUOTA_GB +:+ " GB."
   | _ =>
       ":warning: *" +:+ PyStr.str_int (Z.of_nat (length over_quota))
         +:+ " directory(s) over quota (" +:+ PyStr.str_int QUOTA_GB +:+ " GB):*" +:+ nl +:+
       concat_strings
         ((fun line =>
             "• `" +:+ v_path (fst line) +:+ "` - " +:+ v_size_human (fst line)
               +:+ " (" +:+ fmt_2f (snd line) +:+ " GB over)" +:+ nl)
          <$> report over_quota)
   end) +:+
  nl +:+ nl +:+ "_Metrics saved to `" +:+ bucket_name +:+ "/" +:+ minio_path c +:+ "`_".

(** Lines 40-200, console output left out: the effects of a run in
    order, and [Ok] when the script runs to its end. *)
Definition run (w : env) (l : listings) (c : clock) : list event * Py.result unit :=
  let bucket_data := bucket_data (buckets l) in
  let path_data := path_data (path_sizes (pass1 l) (pass2 l)) in
  let csv := csv_text (written_rows bucket_data path_data) in
  let csv_bytes := Utf8.encode csv in
  let over_quota := over_quota path_data in
  (seq (perform (WriteFile "minio_sizes.csv" csv) (local_write w)) (fun _ =>
   seq (perform (PutObject bucket_name (minio_path c) csv_bytes
                           (Z.of_nat (String.length csv_bytes)) "text/csv")
                (put w)) (fun _ =>
   except_slack
     (perform (PostMessage "berdl_minio_notifications" (message c over_quota))
              (Py.SlackApiError <$> slack w)))))
  [].

End Main.

(* ================================================================== *)
(** * manual_test/quota.py *)

Module Quota.
Import Minio PyFloat.

Definition QUOTA_GB : Z := 250.

(** [max(l, key=key)] on a list that is not empty: the first of the
    greatest. *)
Definition max_key {A : Type} (ltb : A -> A -> bool) (x : A) (l : list A) : A :=
  foldl (fun best y => if ltb best y then y else best) x l.

(** A row of [csv.DictReader]: [row[key]]. *)
Fixpoint getitem (d : Csv.dict) (key : string) : Py.result Csv.value :=
  match d with
  | [] => Py.Raise Py.KeyError
  | (k, v) :: d' =>
      if Csv.key_eqb k (Some key) then Py.Ok v else getitem d' key
  end.

Record violation := Violation {
  v_path : string; v_size_gb : pyfloat; v_size_human : Csv.value
}.

Section with_float.
(** The builtin [float] on a [str]; [None] is [ValueError]. *)
Variable float : string -> option pyfloat.

(** Lines 51-63: one row; the violation to append, if any. *)
Definition check_row (row : Csv.dict) : Py.result (option violation) :=
  path ← getitem row "path";
  match path with
  | Csv.VStr path =>
      if negb (PyStr.contains "/" path) then Py.Ok None
      else
        size_gb ← getitem row "size_gb";
        match size_gb with
        | Csv.VStr text =>
            match float text with
            | None => Py.Raise Py.ValueError
            | Some size_gb =>
                if gt_int size_gb QUOTA_GB
                then size_human ← getitem row "size_human";
                     Py.Ok (Some (Violation path size_gb size_human))
                else Py.Ok None
            end
        | _ => Py.Raise Py.TypeError
        end
  | _ => Py.Raise Py.TypeError
  end.

(** Lines 48-63. *)
Definition over_quota (rows : list Csv.dict) : Py.result (list violation) :=
  Py.bind (Py.mapM check_row rows) (fun found => Py.Ok (omap id found)).

(** Lines 72-73: the violations as they are reported. *)
Definition report (over_quota : list violation) : list (violation * pyfloat) :=
  (fun item => (item, sub_int (v_size_gb item) QUOTA_GB))
  <$> PySort.sorted_key_reverse ltb v_size_gb over_quota.

(** Lines 23-63: the quota check of the latest snapshot of the store;
    [None] when there is no metrics file (the script exits). *)
Definition latest_over_quota (st : store) : Py.result (option (list violation)) :=
  let metrics_files :=
    filter (fun obj => PyStr.endswith ".csv" (e_object_name obj) = true)
           (list_objects st "metrics/") in
  match metrics_files with
  | [] => Py.Ok None
  | first :: others =>
      times ← Py.mapM (fun obj =>
                 match e_last_modified obj with
                 | Some d => Py.Ok (e_object_name obj, d)
                 | None => Py.Raise Py.TypeError
                 end) metrics_files;
      match times with
      | [] => Py.Ok None
      | t :: ts =>
          let latest_file := max_key (fun a b => datetime_ltb (snd a) (snd b)) t ts in
          data ← get_object st (fst latest_file);
          csv_content ← Utf8.decode data;
          match Csv.DictReader csv_content with
          | None => Py.Raise Py.CsvError
          | Some rows => found ← over_quota rows; Py.Ok (Some found)
          end
      end
  end.
End with_float.

End Quota.

(* ================================================================== *)
(** * app.py: the metrics viewer *)

Module App.
Import Minio.

Definition metrics_prefix : string := "metrics/".

(** The dicts of [metrics_files] (lines 45-49). *)
Record file_info := FileInfo {
  name : string;
  last_modified : string;
  size : option Z
}.

(** Lines 36-52. *)
Definition get_metrics_files (st : store) (limit : Z) : Py.result (list file_info) :=
  metrics_files ←
    Py.mapM (fun obj =>
               match e_last_modified obj with
               | Some d => Py.Ok (FileInfo (e_object_name obj) (isoformat d) (e_size obj))
               | None => Py.Raise Py.AttributeError
               end)
            (filter (fun obj => PyStr.endswith ".csv" (e_object_name obj) = true)
                    (list_objects st metrics_prefix));
  Py.Ok (PySort.slice_to limit
           (PySort.sorted_key_reverse String.ltb last_modified metrics_files)).

(** Lines 55-66. *)
Definition read_csv_from_minio (st : store) (object_name : string)
    : Py.result (list Csv.dict) :=
  data ← get_object st object_name;
  csv_content ← Utf8.decode data;
  match Csv.DictReader csv_content with
  | Some rows => Py.Ok rows
  | None => Py.Raise Py.CsvError
  end.

(** The [detail] of an [HTTPException]: a literal, or [str(e)]. *)
Inductive detail :=
| Text (s : string)
| StrOf (e : Py.exn).

(** What a route answers: the JSON body, or the error response the
    framework builds from an [HTTPException]. *)
Inductive response (A : Type) :=
| Json (body : A)
| HTTPException (status_code : Z) (detail : detail).
Arguments Json {A} body.
Arguments HTTPException {A} status_code detail.

(** Lines 75-84. *)
Definition get_csv (st : store) (file : string) : response (list Csv.dict) :=
  if String.eqb file "" then HTTPException 400 (Text "No file specified")
  else
    match read_csv_from_minio st file with
    | Py.Ok rows => Json rows
    | Py.Raise e => HTTPException 500 (StrOf e)
    end.

(** Lines 87-90; [limit] is [None] when the query leaves it out.  The
    framework answers 422 to a limit outside 1..20 and 500 to an
    exception the route does not handle. *)
Definition list_files (st : store) (limit : option Z) : response (list file_info) :=
  let limit := default 5 limit in
  if (1 <=? limit) && (limit <=? 20)
  then match get_metrics_files st limit with
       | Py.Ok files => Json files
       | Py.Raise e => HTTPException 500 (Text "Internal Server Error")
       end
  else HTTPException 422 (Text "Unprocessable Entity").

End App.

(* ================================================================== *)
(** * Sums used in the statements *)

(** Sum of the sizes of the objects of a listing that satisfy [p]. *)
Definition size_where (p : string -> bool) (l : list Minio.object) : Z :=
  foldr (fun obj acc => if p (Minio.object_name obj) then Minio.size obj + acc else acc) 0 l.

(** Sum of the values of a dict. *)
Definition dict_total (m : gmap string Z) : Z :=
  map_fold (fun _ v acc => v + acc) 0 m.

(** The aggregation key of a listed object. *)
Definition key_of (obj : Minio.object) : string :=
  Main.two_level_path (Minio.object_name obj).

(** In a sorted list [a] may stand before [b]: [b] is not smaller. *)
Definition precedes {A : Type} (lt : A -> A -> bool) (a b : A) : Prop :=
  lt b a = false.

Section run_effects.
Import Minio Main.

(** The rows a run writes, and the effects of a run that goes well. *)
Definition run_rows (l : listings) : list row :=
  written_rows (bucket_data (buckets l))
               (path_data (path_sizes (pass1 l) (pass2 l))).

Definition local_event (l : listings) : event :=
  WriteFile "minio_sizes.csv" (csv_text (run_rows l)).

Definition durable_event (l : listings) (c : clock) : event :=
  PutObject bucket_name (minio_path c) (csv_text (run_rows l))
            (Z.of_nat (String.length (csv_text (run_rows l)))) "text/csv".

Definition slack_event (l : listings) (c : clock) (failure : option string) : event :=
  match failure with
  | None =>
      PostMessage "berdl_minio_notifications"
        (message c (over_quota (path_data (path_sizes (pass1 l) (pass2 l)))))
  | Some error => PrintSlackError error
  end.

End run_effects.

Section viewer_statements.
Import Minio App.

(** A stored object that is a snapshot for the viewer: right under the
    metrics prefix, with the tabular-file suffix. *)
Definition is_snapshot (b : blob) : Prop :=
  PyStr.startswith metrics_prefix (blob_name b) = true ∧
  PyStr.contains "/" (drop_chars (String.length metrics_prefix) (blob_name b)) = false ∧
  PyStr.endswith ".csv" (blob_name b) = true.

Global Instance is_snapshot_dec (b : blob) : Decision (is_snapshot b).
Proof. unfold is_snapshot. apply _. Defined.

(** The catalog entry of a stored object. *)
Definition file_of_blob (b : blob) : file_info :=
  FileInfo (blob_name b) (isoformat (modified b))
           (Some (Z.of_nat (String.length (data b)))).

End viewer_statements.

(** Five snapshots with distinct modification times, and two objects the
    catalog leaves out. *)
Definition five_snapshots : Minio.store :=
  [Minio.Blob "metrics/2024-03-01_40s.csv" "path" (Minio.Datetime 2024 3 1 6 0 40 0);
   Minio.Blob "metrics/2024-03-05_38s.csv" "path" (Minio.Datetime 2024 3 5 6 0 38 120000);
   Minio.Blob "metrics/notes.txt" "x" (Minio.Datetime 2024 3 9 0 0 0 0);
   Minio.Blob "metrics/2024-03-02_41s.csv" "path" (Minio.Datetime 2024 3 2 6 0 41 0);
   Minio.Blob "metrics/old/2023-01-01_9s.csv" "path" (Minio.Datetime 2024 3 8 0 0 0 0);
   Minio.Blob "metrics/2024-03-04_39s.csv" "path" (Minio.Datetime 2024 3 4 6 0 39 0);
   Minio.Blob "metrics/2024-03-03_37s.csv" "path" (Minio.Datetime 2024 3 3 6 0 37 5)].

Section csv_statements.
Import Csv.

(** The reader after the characters of [text], a prefix of its input:
    [read] without the end of the input. *)
Fixpoint feed (text : string) (r : Reader) (rows : list (list string))
    (partial : bool) : option (Reader * list (list string) * bool) :=
  match text with
  | EmptyString => Some (r, rows, partial)
  | String c text' =>
      match parse_process_char r (Some c) with
      | None => None
      | Some r' =>
          if Ascii.eqb c LF
          then match end_of_line r' rows with
               | None => None
               | Some (r'', rows') => feed text' r'' rows' false
               end
          else feed text' r' rows true
      end
  end.

(** A field the reader accepts: not longer than its field limit. *)
Definition field_ok (f : string) : Prop :=
  Z.of_nat (String.length f) <= field_limit.

(** The parser state after a field that the character [t] ends. *)
Definition state_after (t : ascii) : ParserState :=
  if Ascii.eqb t delimiter then START_FIELD else EAT_CRNL.

(** The dict [csv.DictReader] returns for a written row. *)
Definition row_dict (r : Main.row) : dict :=
  [(Some "path", VStr (Main.path r));
   (Some "size_bytes", VStr (PyStr.str_int (Main.size_bytes r)));
   (Some "size_mb", VStr (PyFloat.float_repr (Main.size_mb r)));
   (Some "size_gb", VStr (PyFloat.float_repr (Main.size_gb r)));
   (Some "size_human", VStr (Main.size_human r))].

End csv_statements.

(** A listing and the rows of its snapshot, used to instantiate the
    statements: keys with a comma and with a quote character, a key at
    the bucket root, an empty bucket. *)
Definition sample_objects : list Minio.object :=
  [Minio.Object "raw/2023/a,b.parquet" (300 * 1024 ^ 3) (Minio.Datetime 2024 3 1 6 0 0 0);
   Minio.Object "raw/2024/x.csv" 1572864000 (Minio.Datetime 2024 3 2 6 0 0 0);
   Minio.Object "readme.txt" 10 (Minio.Datetime 2024 3 3 6 0 0 0);
   Minio.Object (String Csv.quotechar "q/z") 5 (Minio.Datetime 2024 3 4 6 0 0 0)].

Definition sample_rows : list Main.row :=
  Main.written_rows
    (Main.bucket_data [("cdm-lake", sample_objects); ("empty", [])])
    (Main.path_data (Main.path_sizes sample_objects sample_objects)).

(** A field that can be stored and read back: within the reader's field
    limit and well-formed UTF-8. *)
Definition text_ok (f : string) : Prop :=
  field_ok f ∧ Utf8.valid f = true.

(* ================================================================== *)
(** * Quantities used in the statements about whole runs *)

(** Sum of the [size_bytes] of rows. *)
Definition rows_total (l : list Main.row) : Z :=
  foldr (fun r acc => Main.size_bytes r + acc) 0 l.

(** Sum of the sizes of a listing, as the bucket loop adds them up. *)
Definition listing_size (l : list Minio.object) : Z :=
  foldl (fun acc obj => acc + Minio.size obj) 0 l.

(** The violation [manual_test/quota.py] records for a violation of
    [main.py]: the same path and size, the [size_human] as it is read
    from the snapshot. *)
Definition as_read (v : Main.violation) : Quota.violation :=
  Quota.Violation (Main.v_path v) (Main.v_size_gb v) (Csv.VStr (Main.v_size_human v)).

(** A reading of the numerals in the [size_gb] column of [rows], to
    instantiate [float] on a snapshot of these rows. *)
Definition float_of_rows (rows : list Main.row) (text : string) : option PyFloat.pyfloat :=
  Main.size_gb
  <$> List.find (fun r => String.eqb (PyFloat.float_repr (Main.size_gb r)) text) rows.

(** Lines 39-63 of [manual_test/quota.py]: the quota check of the object
    [name] of the store. *)
Definition check_object (float : string -> option PyFloat.pyfloat) (st : Minio.store)
    (name : string) : Py.result (option (list Quota.violation)) :=
  data ← Minio.get_object st name;
  csv_content ← Utf8.decode data;
  match Csv.DictReader csv_content with
  | None => Py.Raise Py.CsvError
  | Some rows => found ← Quota.over_quota float rows; Py.Ok (Some found)
  end.

(** [a] is not older than [b]. *)
Definition not_older (a b : Minio.blob) : Prop :=
  Minio.datetime_ltb (Minio.modified a) (Minio.modified b) = false.

(* ================================================================== *)
(** * The rows of the manual quota check *)

(** A row the evaluator can read: its path is a field and, when the
    path has a separator, its [size_gb] is a field that [float] reads
    and, when that value is over the quota, it has a [size_human]. *)
Definition readable (float : string -> option PyFloat.pyfloat) (d : Csv.dict) : Prop :=
  ∃ p, Quota.getitem d "path" = Py.Ok (Csv.VStr p) ∧
       (PyStr.contains "/" p = true ->
        ∃ s x, Quota.getitem d "size_gb" = Py.Ok (Csv.VStr s) ∧ float s = Some x ∧
               ((inject_Z 250 < x)%Q -> ∃ h, Quota.getitem d "size_human" = Py.Ok h)).

(** The row [d] is over the quota, and [v] is its violation. *)
Definition violates (float : string -> option PyFloat.pyfloat) (d : Csv.dict)
    (v : Quota.violation) : Prop :=
  ∃ p s x h,
    Quota.getitem d "path" = Py.Ok (Csv.VStr p) ∧ PyStr.contains "/" p = true ∧
    Quota.getitem d "size_gb" = Py.Ok (Csv.VStr s) ∧ float s = Some x ∧
    (inject_Z 250 < x)%Q ∧
    Quota.getitem d "size_human" = Py.Ok h ∧
    v = Quota.Violation p x h.


(* ================================================================== *)
(** * Properties of the sort *)

Section sorted_facts.
Context {A : Type} (lt : A -> A -> bool).

Lemma insert_Permutation (x : A) (l : list A) : PySort.insert lt x l ≡ₚ x :: l.
Proof.
  induction l as [|y l IH]; simpl; [done|].
  destruct (lt x y); [done|]. rewrite IH. apply Permutation_swap.
Qed.

Lemma foldl_insert_Permutation (l acc : list A) :
  foldl (fun acc x => PySort.insert lt x acc) acc l ≡ₚ acc ++ l.
Proof.
  revert acc. induction l as [|x l IH]; intros acc; simpl.
  - by rewrite app_nil_r.
  - rewrite IH, insert_Permutation. simpl. apply Permutation_middle.
Qed.

Lemma sorted_Permutation (l : list A) : PySort.sorted lt l ≡ₚ l.
Proof. unfold PySort.sorted. by rewrite foldl_insert_Permutation. Qed.

Lemma elem_of_sorted (l : list A) (x : A) : x ∈ PySort.sorted lt l ↔ x ∈ l.
Proof. by rewrite sorted_Permutation. Qed.

Lemma length_sorted (l : list A) : length (PySort.sorted lt l) = length l.
Proof. by rewrite sorted_Permutation. Qed.

(** The comparison is a strict weak order. *)
Hypothesis lt_asym : forall x y, lt x y = true -> lt y x = false.
Hypothesis lt_negtrans : forall x y z, lt x y = false -> lt y z = false -> lt x z = false.

Lemma insert_StronglySorted (x : A) (l : list A) :
  StronglySorted (precedes lt) l -> StronglySorted (precedes lt) (PySort.insert lt x l).
Proof.
  induction 1 as [|y l Hl IH Hy]; simpl.
  - repeat constructor.
  - destruct (lt x y) eqn:Hxy.
    + constructor; [by constructor|].
      constructor; [by apply lt_asym|].
      eapply Forall_impl; [exact Hy|]. intros z Hz. unfold precedes in *.
      eapply lt_negtrans; [exact Hz|]. by apply lt_asym.
    + constructor; [done|].
      rewrite insert_Permutation. by constructor.
Qed.

Lemma foldl_insert_StronglySorted (l acc : list A) :
  StronglySorted (precedes lt) acc ->
  StronglySorted (precedes lt) (foldl (fun acc x => PySort.insert lt x acc) acc l).
Proof.
  revert acc. induction l as [|x l IH]; intros acc Hacc; simpl; [done|].
  by apply IH, insert_StronglySorted.
Qed.

Lemma sorted_StronglySorted (l : list A) :
  StronglySorted (precedes lt) (PySort.sorted lt l).
Proof. apply foldl_insert_StronglySorted. constructor. Qed.

End sorted_facts.

Lemma insert_fmap {A B : Type} (lt : B -> B -> bool) (f : A -> B) (x : A) (l : list A) :
  PySort.insert lt (f x) (f <$> l) = f <$> PySort.insert (fun a b => lt (f a) (f b)) x l.
Proof.
  induction l as [|y l IH]; [done|]. cbn [PySort.insert fmap list_fmap].
  destruct (lt (f x) (f y)); [done|]. cbn [fmap list_fmap]. f_equal. exact IH.
Qed.

Lemma sorted_fmap {A B : Type} (lt : B -> B -> bool) (f : A -> B) (l : list A) :
  PySort.sorted lt (f <$> l) = f <$> PySort.sorted (fun a b => lt (f a) (f b)) l.
Proof.
  unfold PySort.sorted. change (@nil B) with (f <$> @nil A).
  generalize (@nil A). induction l as [|x l IH]; intros acc; [done|].
  simpl. rewrite insert_fmap. apply IH.
Qed.

Lemma slice_to_take {A : Type} (n : Z) (l : list A) :
  0 <= n -> PySort.slice_to n l = take (Z.to_nat n) l.
Proof. intros Hn. unfold PySort.slice_to. by rewrite (proj2 (Z.leb_le 0 n)). Qed.

Lemma StronglySorted_weaken {A : Type} (R1 R2 : relation A) (l : list A) :
  (forall x y, R1 x y -> R2 x y) -> StronglySorted R1 l -> StronglySorted R2 l.
Proof.
  intros HR. induction 1 as [|x l Hl IH Hx]; constructor; [done|].
  eapply Forall_impl; [exact Hx|]. intros y. apply HR.
Qed.

Lemma StronglySorted_NoDup_fmap {A B : Type} (R : relation A) (f : A -> B) (l : list A) :
  StronglySorted R l -> NoDup (f <$> l) ->
  StronglySorted (fun a b => R a b ∧ f a ≠ f b) l.
Proof.
  induction 1 as [|x l Hl IH Hx]; simpl; [constructor|].
  intros [Hnotin Hnd]%NoDup_cons. constructor; [by apply IH|].
  apply Forall_forall. intros y Hy. split.
  - by eapply Forall_forall in Hx.
  - intros Heq. apply Hnotin. rewrite Heq. apply list_elem_of_fmap. by exists y.
Qed.

Lemma StronglySorted_weaken_Forall {A : Type} (R1 R2 : relation A) (P : A -> Prop)
    (l : list A) :
  (forall x y, P x -> P y -> R1 x y -> R2 x y) ->
  Forall P l -> StronglySorted R1 l -> StronglySorted R2 l.
Proof.
  intros HR HP. induction 1 as [|x l Hl IH Hx]; [constructor|].
  apply Forall_cons in HP as [Hpx HP]. constructor; [by apply IH|].
  apply Forall_forall. intros y Hy. apply HR; [done| |].
  - by eapply Forall_forall in HP.
  - by eapply Forall_forall in Hx.
Qed.

(* ================================================================== *)
(** * Properties of the string operations *)

Section string_facts.
Implicit Types (s t p : string) (c : ascii).

Lemma app_empty_r s : s +:+ "" = s.
Proof. induction s as [|c s IH]; simpl; [done|]. unfold String.app in *. simpl. by rewrite IH. Qed.

Lemma app_cons c s t : String c s +:+ t = String c (s +:+ t).
Proof. done. Qed.

Lemma app_empty_l s : "" +:+ s = s.
Proof. done. Qed.

Lemma app_assoc_s s t p : (s +:+ t) +:+ p = s +:+ (t +:+ p).
Proof. induction s as [|c s IH]; [done|]. rewrite !app_cons. by rewrite IH. Qed.

Lemma length_app_s s t : String.length (s +:+ t) = (String.length s + String.length t)%nat.
Proof. induction s as [|c s IH]; [done|]. rewrite app_cons. simpl. by rewrite IH. Qed.

Lemma contains_app c s t :
  PyStr.contains c (s +:+ t) = PyStr.contains c s || PyStr.contains c t.
Proof.
  induction s as [|d s IH]; [done|]. rewrite app_cons. simpl.
  rewrite IH. by rewrite orb_assoc.
Qed.

Lemma split_nonempty c s : PyStr.split c s ≠ [].
Proof.
  destruct s as [|d s]; simpl; [done|].
  destruct (Ascii.eqb d c); [done|]. by destruct (PyStr.split c s).
Qed.

(** Without the separator there is one segment, the string itself. *)
Lemma split_no_sep c s : PyStr.contains c s = false -> PyStr.split c s = [s].
Proof.
  induction s as [|d s IH]; simpl; [done|].
  intros [Hd Hs]%orb_false_iff. rewrite Hd, (IH Hs). done.
Qed.

(** With the separator there are at least two segments. *)
Lemma split_sep c s :
  PyStr.contains c s = true -> (2 <= length (PyStr.split c s))%nat.
Proof.
  induction s as [|d s IH]; simpl; [done|].
  destruct (Ascii.eqb d c) eqn:Hd; simpl.
  - intros _. pose proof (split_nonempty c s).
    destruct (PyStr.split c s); simpl; [done|lia].
  - intros Hs. specialize (IH Hs).
    destruct (PyStr.split c s); simpl in *; lia.
Qed.

Lemma split_length_contains c s :
  (2 <=? length (PyStr.split c s))%nat = PyStr.contains c s.
Proof.
  destruct (PyStr.contains c s) eqn:Hc.
  - apply Nat.leb_le. by apply split_sep.
  - by rewrite split_no_sep.
Qed.

(** ** The order of strings *)

Lemma ltb_compare s t : String.ltb s t = true <-> String.compare s t = Lt.
Proof. unfold String.ltb. destruct (String.compare s t); split; congruence. Qed.

Lemma ascii_compare_refl c : Ascii.compare c c = Eq.
Proof. unfold Ascii.compare. apply N.compare_refl. Qed.

Lemma compare_refl s : String.compare s s = Eq.
Proof. induction s as [|c s IH]; simpl; [done|]. by rewrite ascii_compare_refl. Qed.

Lemma ltb_irrefl s : String.ltb s s = false.
Proof. unfold String.ltb. by rewrite compare_refl. Qed.

Lemma ltb_leb s t : String.ltb s t = negb (String.leb t s).
Proof.
  unfold String.ltb, String.leb. rewrite (String.compare_antisym s t).
  by destruct (String.compare t s).
Qed.

Lemma ltb_asym s t : String.ltb s t = true -> String.ltb t s = false.
Proof.
  rewrite !ltb_leb, negb_true_iff, negb_false_iff. intros Hts.
  destruct (String.leb_total s t) as [H|H]; [exact H|congruence].
Qed.

Lemma ltb_negtrans s t p :
  String.ltb s t = false -> String.ltb t p = false -> String.ltb s p = false.
Proof.
  rewrite !ltb_leb, !negb_false_iff. intros H1 H2.
  apply Is_true_true. apply Is_true_true in H1, H2.
  change (String.le p s). change (String.le t s) in H1. change (String.le p t) in H2.
  by etrans.
Qed.

Lemma ltb_trans s t p :
  String.ltb s t = true -> String.ltb t p = true -> String.ltb s p = true.
Proof.
  intros H1 H2. destruct (String.ltb s p) eqn:H3; [done|].
  pose proof (ltb_asym _ _ H2) as H4.
  pose proof (ltb_negtrans _ _ _ H3 H4) as H5. congruence.
Qed.




End string_facts.

(** The aggregation key, by cases on the separator. *)
Lemma two_level_path_no_slash (name : string) :
  PyStr.contains "/" name = false -> Main.two_level_path name = name.
Proof.
  intros H. unfold Main.two_level_path. by rewrite split_length_contains, H, split_no_sep.
Qed.

Lemma two_level_path_segments (name : string) :
  Main.two_level_path name =
  match PyStr.split "/" name with
  | s0 :: s1 :: _ => s0 +:+ "/" +:+ s1
  | [s0] => s0
  | [] => ""
  end.
Proof.
  unfold Main.two_level_path.
  destruct (PyStr.split "/" name) as [|s0 [|s1 l]]; done.
Qed.

(* ================================================================== *)
(** * Two-pass aggregation *)

Section aggregation.
Import Minio Main.
Implicit Types (l : list object) (m : gmap string Z) (k : string).

Lemma two_level_paths_acc l (acc : gset string) k :
  k ∈ foldl (fun acc obj => {[ two_level_path (object_name obj) ]} ∪ acc) acc l
  ↔ k ∈ acc ∨ ∃ obj, obj ∈ l ∧ key_of obj = k.
Proof.
  revert acc. induction l as [|o l IH]; intros acc; simpl.
  - split; [by left|]. intros [Hk|(o & Ho & _)]; [exact Hk|].
    by apply elem_of_nil in Ho.
  - rewrite IH, elem_of_union, elem_of_singleton. unfold key_of. split.
    + intros [[Hk|Hk]|(o' & Ho' & Hk)].
      * right. exists o. split; [apply list_elem_of_here|by symmetry].
      * by left.
      * right. exists o'. split; [by apply list_elem_of_further|exact Hk].
    + intros [Hk|(o' & Ho' & Hk)]; [by left; right|].
      apply elem_of_cons in Ho' as [->|Ho'].
      * left; left. by symmetry.
      * right. by exists o'.
Qed.

Lemma elem_of_two_level_paths (pass1 : list object) k :
  k ∈ two_level_paths pass1 ↔ ∃ obj, obj ∈ pass1 ∧ key_of obj = k.
Proof.
  unfold two_level_paths. rewrite two_level_paths_acc.
  split; [|by right]. intros [Hk|Hk]; [|exact Hk].
  by apply not_elem_of_empty in Hk.
Qed.

Lemma add_size_lookup m (o : object) k :
  add_size m o !! k =
  (fun v => if String.eqb (key_of o) k then size o + v else v) <$> m !! k.
Proof.
  unfold add_size. fold (key_of o).
  destruct (String.eqb_spec (key_of o) k) as [->|Hne].
  - destruct (m !! k) as [v|] eqn:E; simpl; [|done].
    rewrite lookup_insert_eq. f_equal. lia.
  - destruct (m !! key_of o) as [v|] eqn:E.
    + rewrite lookup_insert_ne by done. by destruct (m !! k).
    + by destruct (m !! k).
Qed.

Lemma add_size_dom m (o : object) : dom (add_size m o) = dom m.
Proof.
  apply set_eq. intros k. rewrite !elem_of_dom, add_size_lookup.
  by rewrite fmap_is_Some.
Qed.

Lemma foldl_add_size_lookup l m k :
  foldl add_size m l !! k =
  (fun v => v + size_where (fun n => String.eqb (two_level_path n) k) l) <$> m !! k.
Proof.
  revert m. induction l as [|o l IH]; intros m; simpl.
  - destruct (m !! k); simpl; f_equal; lia.
  - rewrite IH, add_size_lookup. unfold key_of.
    destruct (m !! k) as [v|]; simpl; [|done].
    f_equal. destruct (String.eqb _ k); lia.
Qed.

Lemma foldl_add_size_dom l m : dom (foldl add_size m l) = dom m.
Proof.
  revert m. induction l as [|o l IH]; intros m; simpl; [done|].
  by rewrite IH, add_size_dom.
Qed.

Lemma dict_total_insert m k v :
  m !! k = None → dict_total (<[k:=v]> m) = v + dict_total m.
Proof.
  intros Hk. unfold dict_total.
  rewrite map_fold_insert_L; [done| |done].
  intros; lia.
Qed.

Lemma dict_total_update m k v w :
  m !! k = Some v → dict_total (<[k:=w]> m) = dict_total m + (w - v).
Proof.
  intros Hk.
  rewrite <-(insert_id m k v) at 2 by done.
  rewrite <-(insert_delete_eq m k w), <-(insert_delete_eq m k v).
  rewrite !dict_total_insert by apply lookup_delete_eq. lia.
Qed.

Lemma dict_total_add_size m (o : object) :
  dict_total (add_size m o) =
  dict_total m + (if bool_decide (key_of o ∈ dom m) then size o else 0).
Proof.
  unfold add_size. fold (key_of o).
  destruct (m !! key_of o) as [v|] eqn:E.
  - rewrite bool_decide_eq_true_2 by (apply elem_of_dom; eauto).
    erewrite dict_total_update by done. lia.
  - rewrite bool_decide_eq_false_2 by (by apply not_elem_of_dom). lia.
Qed.

Lemma dict_total_foldl_add_size l m :
  dict_total (foldl add_size m l) =
  dict_total m + size_where (fun n => bool_decide (two_level_path n ∈ dom m)) l.
Proof.
  revert m. induction l as [|o l IH]; intros m; simpl; [lia|].
  rewrite IH, dict_total_add_size, add_size_dom. unfold key_of.
  destruct (bool_decide _); lia.
Qed.

Lemma dict_total_gset_to_gmap_0 (X : gset string) :
  dict_total (gset_to_gmap 0 X) = 0.
Proof.
  induction X as [|x X Hx IH] using set_ind_L.
  - by rewrite gset_to_gmap_empty.
  - rewrite gset_to_gmap_union_singleton, dict_total_insert; [lia|].
    by apply lookup_gset_to_gmap_None.
Qed.

Lemma path_sizes_dom (pass1 pass2 : list object) :
  dom (path_sizes pass1 pass2) = two_level_paths pass1.
Proof. unfold path_sizes. by rewrite foldl_add_size_dom, dom_gset_to_gmap. Qed.

Lemma path_sizes_lookup (pass1 pass2 : list object) k :
  path_sizes pass1 pass2 !! k =
  if bool_decide (k ∈ two_level_paths pass1)
  then Some (size_where (fun n => String.eqb (two_level_path n) k) pass2)
  else None.
Proof.
  unfold path_sizes. rewrite foldl_add_size_lookup, lookup_gset_to_gmap.
  case_bool_decide; [rewrite option_guard_True|rewrite option_guard_False]; done.
Qed.

End aggregation.

(* ================================================================== *)
(** * The rows of a run *)

Section rows.
Import Minio Main.
Implicit Types (m : gmap string Z) (k : string) (r : row).



Lemma sorted_items_Permutation m :
  PySort.sorted item_lt (map_to_list m) ≡ₚ map_to_list m.
Proof. apply sorted_Permutation. Qed.


Lemma elem_of_path_data m r :
  r ∈ path_data m ↔ ∃ k v, m !! k = Some v ∧ r = path_row (k, v).
Proof.
  unfold path_data. rewrite list_elem_of_fmap. split.
  - intros ([k v] & -> & Hin). exists k, v. split; [|done].
    apply elem_of_map_to_list. by apply elem_of_sorted in Hin.
  - intros (k & v & Hkv & ->). exists (k, v). split; [done|].
    apply elem_of_sorted. by apply elem_of_map_to_list.
Qed.



Lemma path_row_contains_slash (item : string * Z) :
  PyStr.contains "/" (path (path_row item)) = true.
Proof.
  unfold path_row. cbn [path]. rewrite !contains_app.
  by rewrite orb_true_r.
Qed.

End rows.

(* ================================================================== *)
(** * Properties of the float operations *)

Section float_facts.
Import PyFloat.

(** Integers below [2 ^ 53] are binary64 numbers. *)
Lemma round53_exact (n : Z) : Z.abs n < 2 ^ 53 -> round53 n = n.
Proof.
  intros Hn. unfold round53.
  destruct (Z.eq_dec n 0) as [->|Hn0]; [done|].
  assert (Z.log2 (Z.abs n) < 53) by (apply Z.log2_lt_pow2; lia).
  destruct (Z.leb_spec (Z.log2 (Z.abs n) - 52) 0); [done|lia].
Qed.

(** Rounding does not go below [2 ^ 53] from above it. *)
Lemma round53_large (n : Z) : 2 ^ 53 <= n -> 2 ^ 53 <= round53 n.
Proof.
  intros Hn. unfold round53.
  rewrite (Z.abs_eq n), (Z.sgn_pos n) by lia.
  set (s := Z.log2 n - 52).
  assert (53 <= Z.log2 n) by (apply Z.log2_le_pow2; lia).
  destruct (Z.leb_spec s 0); [lia|].
  assert (0 < 2 ^ s) by (apply Z.pow_pos_nonneg; lia).
  assert (2 ^ 52 <= n / 2 ^ s) as Hq.
  { apply Z.div_le_lower_bound; [done|].
    rewrite Z.mul_comm, <-Z.pow_add_r by lia.
    replace (52 + s) with (Z.log2 n) by (unfold s; lia).
    apply Z.log2_spec. lia. }
  assert (2 <= 2 ^ s).
  { change 2 with (2 ^ 1) at 1. apply Z.pow_le_mono_r; lia. }
  assert (2 ^ 53 = 2 ^ 52 * 2) as -> by done.
  destruct (_ || _); nia.
Qed.

(** A threshold below [2 ^ 53] is crossed by the rounded value exactly
    when the integer crosses it. *)
Lemma round53_le_iff (t n : Z) : 0 <= n -> t <= 2 ^ 53 -> (t <= round53 n <-> t <= n).
Proof.
  intros Hn Ht. destruct (Z.lt_ge_cases n (2 ^ 53)).
  - by rewrite round53_exact by lia.
  - pose proof (round53_large n). lia.
Qed.

Lemma round53_nonpos (n : Z) : n <= 0 -> round53 n <= 0.
Proof.
  intros Hn. unfold round53.
  destruct (Z.leb_spec (Z.log2 (Z.abs n) - 52) 0); [done|].
  set (s := Z.log2 (Z.abs n) - 52) in *.
  assert (0 < 2 ^ s) by (apply Z.pow_pos_nonneg; lia).
  assert (0 <= Z.abs n / 2 ^ s) by (apply Z.div_pos; lia).
  assert (Z.sgn n <= 0) by lia.
  destruct (_ || _); nia.
Qed.

Lemma round53_lt_iff (t n : Z) : 0 <= t < 2 ^ 53 -> (t < round53 n <-> t < n).
Proof.
  intros Ht. destruct (Z.lt_ge_cases n (2 ^ 53)).
  - destruct (Z.le_gt_cases n 0).
    + pose proof (round53_nonpos n). lia.
    + by rewrite round53_exact by lia.
  - pose proof (round53_large n). lia.
Qed.

Lemma round53_nonneg (n : Z) : 0 <= n -> 0 <= round53 n.
Proof. intros Hn. by apply round53_le_iff. Qed.

Lemma ge_int_truediv (n t : Z) (b : positive) :
  0 <= n -> t * Zpos b <= 2 ^ 53 ->
  ge_int (truediv n b) t = bool_decide (t * Zpos b <= n).
Proof.
  intros Hn Ht. unfold ge_int, truediv, Qle_bool. simpl.
  rewrite Z.mul_1_r. apply Bool.eq_iff_eq_true.
  rewrite bool_decide_eq_true, Z.leb_le. by apply round53_le_iff.
Qed.

Lemma gt_int_truediv (n t : Z) (b : positive) :
  0 <= t -> t * Zpos b < 2 ^ 53 ->
  gt_int (truediv n b) t = bool_decide (t * Zpos b < n).
Proof.
  intros Hn Ht. unfold gt_int, truediv, Qle_bool. simpl.
  rewrite Z.mul_1_r. apply Bool.eq_iff_eq_true.
  rewrite bool_decide_eq_true, negb_true_iff, Z.leb_gt. apply round53_lt_iff. lia.
Qed.

(** [round_half_even] is within one half of the ratio. *)
Lemma round_half_even_near (p : Z) (q : positive) :
  2 * Z.abs (p - round_half_even p q * Zpos q) <= Zpos q.
Proof.
  unfold round_half_even.
  pose proof (Z.div_mod p (Zpos q) ltac:(lia)) as Hdm.
  pose proof (Z.mod_pos_bound p (Zpos q) ltac:(lia)) as Hb.
  set (d := p / Zpos q) in *. set (r := p mod Zpos q) in *.
  destruct (Z.ltb_spec (2 * r) (Zpos q)); [nia|].
  destruct (Z.ltb_spec (Zpos q) (2 * r)); [nia|].
  destruct (Z.even d); nia.
Qed.

Lemma round_half_even_nonneg (p : Z) (q : positive) :
  0 <= p -> 0 <= round_half_even p q.
Proof.
  intros Hp. unfold round_half_even.
  assert (0 <= p / Zpos q) by (apply Z.div_pos; lia).
  repeat case_match; lia.
Qed.

Lemma fmt_2f_truediv (n : Z) (b : positive) :
  0 <= n ->
  fmt_2f (truediv n b) = decimal2 (round_half_even (100 * round53 n) b).
Proof.
  intros Hn. unfold fmt_2f, truediv. simpl Qnum. simpl Qden.
  pose proof (round53_nonneg n Hn).
  rewrite Z.abs_eq by done.
  destruct (Z.ltb_spec (round53 n) 0); [lia|done].
Qed.

End float_facts.

(* ================================================================== *)
(** * The order of ISO timestamps *)

Section time_facts.
Import Minio.

Lemma digit_compare (x y : Z) :
  0 <= x < 10 -> 0 <= y < 10 -> Ascii.compare (digit x) (digit y) = (x ?= y).
Proof.
  intros Hx Hy.
  assert (x = 0 ∨ x = 1 ∨ x = 2 ∨ x = 3 ∨ x = 4 ∨ x = 5 ∨ x = 6 ∨ x = 7 ∨ x = 8 ∨ x = 9)
    as Hxs by lia.
  assert (y = 0 ∨ y = 1 ∨ y = 2 ∨ y = 3 ∨ y = 4 ∨ y = 5 ∨ y = 6 ∨ y = 7 ∨ y = 8 ∨ y = 9)
    as Hys by lia.
  destruct_or!; subst; reflexivity.
Qed.

Lemma compare_by_digits (a b : Z) (c : comparison) :
  match a / 10 ?= b / 10 with
  | Eq => match a mod 10 ?= b mod 10 with Eq => c | ne => ne end
  | ne => ne
  end
  = match a ?= b with Eq => c | ne => ne end.
Proof.
  pose proof (Z.div_mod a 10 ltac:(lia)). pose proof (Z.div_mod b 10 ltac:(lia)).
  pose proof (Z.mod_pos_bound a 10 ltac:(lia)). pose proof (Z.mod_pos_bound b 10 ltac:(lia)).
  destruct (Z.compare_spec (a / 10) (b / 10)), (Z.compare_spec (a mod 10) (b mod 10)),
    (Z.compare_spec a b); try lia; reflexivity.
Qed.

(** Zero-padded numerals of the same width compare as their numbers. *)
Lemma compare_pad (w : nat) (a b : Z) (s t : string) :
  0 <= a < 10 ^ Z.of_nat w -> 0 <= b < 10 ^ Z.of_nat w ->
  String.compare (pad w a +:+ s) (pad w b +:+ t)
  = match a ?= b with Eq => String.compare s t | ne => ne end.
Proof.
  revert a b s t. induction w as [|w IH]; intros a b s t Ha Hb.
  - simpl in *. assert (a = 0) as -> by lia. assert (b = 0) as -> by lia. done.
  - rewrite Nat2Z.inj_succ, Z.pow_succ_r in Ha, Hb by lia.
    cbn [pad]. rewrite !app_assoc_s, !app_cons.
    change ("" +:+ s) with s. change ("" +:+ t) with t.
    rewrite IH by (split; [apply Z.div_pos; lia|apply Z.div_lt_upper_bound; lia]).
    cbn [String.compare].
    rewrite digit_compare by (apply Z.mod_pos_bound; lia).
    apply compare_by_digits.
Qed.

(** One step of a lexicographic comparison. *)
Lemma ltb_lex (x y : Z) (c : comparison) (r : bool) :
  (if c is Lt then true else false) = r ->
  (if (match x ?= y with Eq => c | ne => ne end) is Lt then true else false)
  = (x <? y) || (x =? y) && r.
Proof.
  intros <-.
  destruct (Z.compare_spec x y), (Z.ltb_spec x y), (Z.eqb_spec x y);
    simpl; try reflexivity; lia.
Qed.

Lemma compare_cons_same (c : ascii) (s t : string) :
  String.compare (String c s) (String c t) = String.compare s t.
Proof. simpl. by rewrite ascii_compare_refl. Qed.

(** The order of the time stamps of two valid datetimes is the order of
    the datetimes. *)
Lemma isoformat_ltb (a b : datetime) :
  valid_datetime a -> valid_datetime b ->
  String.ltb (isoformat a) (isoformat b) = datetime_ltb a b.
Proof.
  intros (Hy1 & Hm1 & Hd1 & Hh1 & Hi1 & Hs1 & Hu1) (Hy2 & Hm2 & Hd2 & Hh2 & Hi2 & Hs2 & Hu2).
  unfold String.ltb, isoformat, datetime_ltb, datetime_key.
  cbn [list_ltb].
  repeat (rewrite compare_pad by (simpl; lia);
          rewrite ?app_cons, ?app_empty_l, ?compare_cons_same).
  assert (String.compare
            ((if microsecond a =? 0 then "" else String "." (pad 6 (microsecond a)))
               +:+ "+00:00")
            ((if microsecond b =? 0 then "" else String "." (pad 6 (microsecond b)))
               +:+ "+00:00")
          = (microsecond a ?= microsecond b)) as ->.
  { destruct (Z.eqb_spec (microsecond a) 0) as [Ha|Ha],
             (Z.eqb_spec (microsecond b) 0) as [Hb|Hb].
    - rewrite Ha, Hb. reflexivity.
    - rewrite Ha. symmetry. change (String.compare _ _) with Lt.
      apply Z.compare_lt_iff. lia.
    - rewrite Hb. symmetry. change (String.compare _ _) with Gt.
      apply Z.compare_gt_iff. lia.
    - rewrite !app_cons, compare_cons_same.
      rewrite compare_pad by (simpl; lia). rewrite compare_refl.
      by destruct (microsecond a ?= microsecond b). }
  repeat apply ltb_lex.
  destruct (Z.compare_spec (microsecond a) (microsecond b)),
    (Z.ltb_spec (microsecond a) (microsecond b)),
    (Z.eqb_spec (microsecond a) (microsecond b)); simpl; try reflexivity; lia.
Qed.

End time_facts.

(* ================================================================== *)
(** * The catalog of snapshots *)

Section viewer_facts.
Import Minio App.

Lemma endswith_app_inv (suf s : string) :
  PyStr.endswith suf s = true -> ∃ p, s = p +:+ suf.
Proof.
  induction s as [|c s IH]; cbn [PyStr.endswith].
  - rewrite orb_false_r. intros ->%String.eqb_eq. by exists "".
  - intros [->%String.eqb_eq|H]%orb_true_iff; [by exists ""|].
    destruct (IH H) as [p ->]. by exists (String c p).
Qed.

Lemma endswith_app (p suf : string) : PyStr.endswith suf (p +:+ suf) = true.
Proof.
  induction p as [|c p IH].
  - rewrite app_empty_l. destruct suf; cbn [PyStr.endswith]; by rewrite String.eqb_refl.
  - rewrite app_cons. cbn [PyStr.endswith]. rewrite IH. apply orb_true_r.
Qed.

Lemma last_char_inj (s t : string) (a b : ascii) :
  s +:+ String a "" = t +:+ String b "" -> a = b.
Proof.
  revert t. induction s as [|c s IH]; intros [|d t]; rewrite ?app_cons, ?app_empty_l.
  - congruence.
  - intros [= _ H]. by destruct t.
  - intros [= _ H]. by destruct s.
  - intros [= _ H]. by eapply IH.
Qed.

Lemma through_slash_ends (r : string) :
  PyStr.contains "/" r = true -> ∃ q, through_slash r = q +:+ "/".
Proof.
  induction r as [|c r IH]; simpl; [done|].
  destruct (Ascii.eqb c "/") eqn:Hc; simpl.
  - intros _. apply Ascii.eqb_eq in Hc as ->. by exists "".
  - intros H. destruct (IH H) as [q ->]. by exists (String c q).
Qed.

(** A common prefix ends with a slash and is no tabular file. *)
Lemma prefix_entry_not_csv (prefix r : string) :
  PyStr.contains "/" r = true ->
  PyStr.endswith ".csv" (prefix +:+ through_slash r) = false.
Proof.
  intros [q Hq]%through_slash_ends. rewrite Hq.
  destruct (PyStr.endswith _ _) eqn:E; [|done].
  apply endswith_app_inv in E as [p Hp].
  change ".csv" with (".cs" +:+ "v") in Hp.
  rewrite <-!app_assoc_s in Hp. by apply last_char_inj in Hp.
Qed.

Lemma elem_of_dedup_strings (seen l : list string) (x : string) :
  x ∈ dedup_strings seen l -> x ∈ l.
Proof.
  revert seen. induction l as [|y l IH]; intros seen; simpl; [done|].
  destruct (existsb _ seen).
  - intros H. apply list_elem_of_further. by eapply IH.
  - intros [->|H]%elem_of_cons; [apply list_elem_of_here|].
    apply list_elem_of_further. by eapply IH.
Qed.

Lemma filter_none {A : Type} (P : A -> Prop) `{forall x, Decision (P x)} (l : list A) :
  Forall (fun x => ¬ P x) l -> filter P l = [].
Proof.
  induction 1 as [|x l Hx Hl IH]; [done|]. by rewrite filter_cons_False.
Qed.

Lemma filter_thrice {A : Type} (P1 P2 P3 Q : A -> Prop)
    `{forall x, Decision (P1 x), forall x, Decision (P2 x),
      forall x, Decision (P3 x), forall x, Decision (Q x)} (l : list A) :
  (forall x, Q x <-> P1 x ∧ P2 x ∧ P3 x) ->
  filter P3 (filter P2 (filter P1 l)) = filter Q l.
Proof.
  intros HQ. induction l as [|x l IH]; [done|].
  rewrite (filter_cons Q), (filter_cons P1).
  destruct (decide (P1 x)) as [Hp1|Hp1].
  - rewrite (filter_cons P2). destruct (decide (P2 x)) as [Hp2|Hp2].
    + rewrite (filter_cons P3). destruct (decide (P3 x)) as [Hp3|Hp3].
      * rewrite IH, decide_True; [done|]. by apply HQ.
      * rewrite IH, decide_False; [done|]. intros Hq%HQ. tauto.
    + rewrite IH, decide_False; [done|]. intros Hq%HQ. tauto.
  - rewrite IH, decide_False; [done|]. intros Hq%HQ. tauto.
Qed.

Lemma filter_fmap_entries (p : string -> bool) (l : list blob) :
  filter (fun obj => p (e_object_name obj) = true) (entry_of_blob <$> l)
  = entry_of_blob <$> filter (fun b => p (blob_name b) = true) l.
Proof.
  induction l as [|b l IH]; [done|].
  rewrite fmap_cons, !filter_cons, IH.
  change (e_object_name (entry_of_blob b)) with (blob_name b).
  by destruct (decide (p (blob_name b) = true)).
Qed.

Lemma mapM_entries (l : list blob) :
  Py.mapM (fun obj =>
             match e_last_modified obj with
             | Some d => Py.Ok (FileInfo (e_object_name obj) (isoformat d) (e_size obj))
             | None => Py.Raise Py.AttributeError
             end) (entry_of_blob <$> l)
  = Py.Ok (file_of_blob <$> l).
Proof.
  induction l as [|b l IH]; [done|].
  rewrite !fmap_cons. cbn [Py.mapM]. rewrite IH. reflexivity.
Qed.

(** The entries the loop of [get_metrics_files] keeps are the snapshots
    of the store, in listing order; none lacks its time. *)
Lemma metrics_entries (st : store) :
  filter (fun obj => PyStr.endswith ".csv" (e_object_name obj) = true)
         (list_objects st metrics_prefix)
  = entry_of_blob <$> filter is_snapshot st.
Proof.
  unfold list_objects. rewrite filter_app.
  rewrite (filter_none _ (_ <$> dedup_strings _ _)), app_nil_r.
  - rewrite (filter_fmap_entries (PyStr.endswith ".csv")).
    f_equal. apply filter_thrice. intros b. unfold is_snapshot. tauto.
  - apply Forall_fmap, Forall_forall. intros p Hp. simpl.
    apply elem_of_dedup_strings, list_elem_of_fmap in Hp as (b & -> & Hb).
    apply list_elem_of_filter in Hb as [Hb _].
    by rewrite prefix_entry_not_csv.
Qed.

Lemma get_metrics_files_eq (st : store) (limit : Z) :
  get_metrics_files st limit =
  Py.Ok (PySort.slice_to limit
           (PySort.sorted_key_reverse String.ltb last_modified
              (file_of_blob <$> filter is_snapshot st))).
Proof.
  unfold get_metrics_files. by rewrite metrics_entries, mapM_entries.
Qed.

End viewer_facts.

(* ================================================================== *)
(** * Reading back what the writer wrote *)

Section csv_facts.
Import Csv.
Implicit Types (r : Reader) (rows : list (list string)) (fs : list string)
  (f acc text : string) (c t : ascii) (p : bool).

Ltac reader_step :=
  repeat (progress
            (cbn [feed parse_process_char end_of_line state fields field];
             unfold set_state, parse_save_field;
             cbn [state fields field];
             rewrite ?Ascii.eqb_refl)).

Ltac is_csv_char a :=
  match a with
  | delimiter => idtac | quotechar => idtac | CR => idtac | LF => idtac
  end.

(** Decide the comparisons between the dialect's own characters. *)
Ltac csv_chars :=
  unfold is_newline;
  repeat match goal with
         | |- context [Ascii.eqb ?a ?b] =>
             is_csv_char a; is_csv_char b;
             let v := eval vm_compute in (Ascii.eqb a b) in
             change (Ascii.eqb a b) with v
         end;
  cbn [orb andb negb].

Lemma feed_app text1 text2 r rows p :
  feed (text1 +:+ text2) r rows p =
  match feed text1 r rows p with
  | Some (r', rows', p') => feed text2 r' rows' p'
  | None => None
  end.
Proof.
  revert r rows p. induction text1 as [|c text1 IH]; intros r rows p; [done|].
  rewrite app_cons. cbn [feed].
  destruct (parse_process_char r (Some c)) as [r'|]; [|done].
  destruct (Ascii.eqb c LF); [|apply IH].
  destruct (end_of_line r' rows) as [[r'' rows']|]; [apply IH|done].
Qed.

Lemma read_feed text1 text2 r rows p :
  read (text1 +:+ text2) r rows p =
  match feed text1 r rows p with
  | Some (r', rows', p') => read text2 r' rows' p'
  | None => None
  end.
Proof.
  revert r rows p. induction text1 as [|c text1 IH]; intros r rows p; [done|].
  rewrite app_cons. cbn [feed read].
  destruct (parse_process_char r (Some c)) as [r'|]; [|done].
  destruct (Ascii.eqb c LF); [|apply IH].
  destruct (end_of_line r' rows) as [[r'' rows']|]; [apply IH|done].
Qed.

Lemma special_false c :
  special c = false ->
  Ascii.eqb c delimiter = false ∧ Ascii.eqb c quotechar = false ∧
  Ascii.eqb c CR = false ∧ Ascii.eqb c LF = false.
Proof. unfold special. rewrite !orb_false_iff. tauto. Qed.

Lemma add_char_ok r c :
  Z.of_nat (String.length (field r)) < field_limit ->
  parse_add_char r c = Some (MkReader (state r) (fields r) (field r +:+ String c "")).
Proof.
  intros H. unfold parse_add_char.
  destruct (Z.leb_spec field_limit (Z.of_nat (String.length (field r)))); [lia|done].
Qed.

Lemma length_snoc acc c :
  Z.of_nat (String.length (acc +:+ String c "")) = Z.of_nat (String.length acc) + 1.
Proof. rewrite length_app_s. simpl. lia. Qed.

Lemma snoc_app acc c f : (acc +:+ String c "") +:+ f = acc +:+ String c f.
Proof. by rewrite app_assoc_s. Qed.

(** The characters of an unquoted field are added one by one. *)
Lemma feed_plain f fs acc rows p :
  needs_quotes f = false ->
  Z.of_nat (String.length acc) + Z.of_nat (String.length f) <= field_limit ->
  ∃ p', feed f (MkReader IN_FIELD fs acc) rows p
        = Some (MkReader IN_FIELD fs (acc +:+ f), rows, p').
Proof.
  revert acc p. induction f as [|c f IH]; intros acc p Hq Hlen.
  - exists p. by rewrite app_empty_r.
  - cbn [needs_quotes] in Hq. apply orb_false_iff in Hq as [Hc Hq].
    apply special_false in Hc as (Hd & _ & Hcr & Hlf).
    cbn [String.length] in Hlen.
    destruct (IH (acc +:+ String c "") true Hq) as [p' Hp'].
    { rewrite length_snoc. lia. }
    exists p'. cbn [feed parse_process_char state].
    unfold is_newline. rewrite Hlf, Hcr, Hd. cbn [orb].
    rewrite add_char_ok; [|cbn [state fields field]; lia].
    cbn [state fields field]. by rewrite Hp', snoc_app.
Qed.

(** The doubled characters of a quoted field give the field back. *)
Lemma feed_doubled f fs acc rows p :
  Z.of_nat (String.length acc) + Z.of_nat (String.length f) <= field_limit ->
  ∃ p', feed (doubled f) (MkReader IN_QUOTED_FIELD fs acc) rows p
        = Some (MkReader IN_QUOTED_FIELD fs (acc +:+ f), rows, p').
Proof.
  revert acc p. induction f as [|c f IH]; intros acc p Hlen.
  - exists p. by rewrite app_empty_r.
  - cbn [String.length] in Hlen. cbn [doubled].
    destruct (Ascii.eqb c quotechar) eqn:Hquote.
    + apply Ascii.eqb_eq in Hquote as ->.
      destruct (IH (acc +:+ String quotechar "") true) as [p' Hp'].
      { rewrite length_snoc. lia. }
      exists p'. reader_step.
      change (Ascii.eqb quotechar LF) with false. reader_step.
      rewrite add_char_ok; [|cbn [state fields field]; lia].
      change (Ascii.eqb quotechar LF) with false.
      cbn [state fields field]. by rewrite Hp', snoc_app.
    + destruct (Ascii.eqb c LF) eqn:Hlf.
      * destruct (IH (acc +:+ String c "") false) as [p' Hp'].
        { rewrite length_snoc. lia. }
        exists p'. reader_step. rewrite Hquote.
        rewrite add_char_ok; [|cbn [state fields field]; lia]. rewrite Hlf.
        reader_step. by rewrite Hp', snoc_app.
      * destruct (IH (acc +:+ String c "") true) as [p' Hp'].
        { rewrite length_snoc. lia. }
        exists p'. reader_step. rewrite Hquote.
        rewrite add_char_ok; [|cbn [state fields field]; lia]. rewrite Hlf.
        cbn [state fields field]. by rewrite Hp', snoc_app.
Qed.

(** A written field followed by the character that ends it is read
    back as that field. *)
Lemma feed_field f t st fs rows p :
  st = START_FIELD ∨ st = START_RECORD ->
  t = delimiter ∨ t = CR ->
  (st = START_RECORD -> t = CR -> f ≠ "") ->
  field_ok f ->
  feed (write_field f +:+ String t "") (MkReader st fs "") rows p
  = Some (MkReader (state_after t) (fs ++ [f]) "", rows, true).
Proof.
  intros Hst Ht Hne Hok. unfold field_ok in Hok. unfold write_field.
  destruct (needs_quotes f) eqn:Hq.
  - (* quoted *)
    rewrite app_cons, app_assoc_s, app_cons, app_empty_l.
    destruct (feed_doubled f fs "" rows true) as [p' Hp'].
    { simpl. lia. }
    rewrite app_empty_l in Hp'.
    assert (feed (String quotechar (doubled f +:+ String quotechar (String t "")))
                 (MkReader st fs "") rows p
            = feed (String quotechar (String t "")) (MkReader IN_QUOTED_FIELD fs f) rows p')
      as ->.
    { destruct Hst as [-> | ->]; reader_step; csv_chars; reader_step;
        by rewrite feed_app, Hp'. }
    destruct Ht as [-> | ->]; reader_step; csv_chars; reader_step; reflexivity.
  - destruct f as [|c f].
    + (* empty *)
      rewrite app_empty_l.
      destruct Ht as [-> | ->], Hst as [-> | ->];
        try (by destruct Hne); reader_step; csv_chars; reader_step; reflexivity.
    + (* plain *)
      cbn [needs_quotes] in Hq. apply orb_false_iff in Hq as [Hc Hq].
      apply special_false in Hc as (Hd & Hqc & Hcr & Hlf).
      cbn [String.length] in Hok.
      destruct (feed_plain f fs (String c "") rows true Hq) as [p' Hp'].
      { simpl. lia. }
      rewrite app_cons in Hp'. rewrite app_empty_l in Hp'.
      assert (feed (String c f +:+ String t "") (MkReader st fs "") rows p
              = feed (String t "") (MkReader IN_FIELD fs (String c f)) rows p') as ->.
      { rewrite app_cons.
        destruct Hst as [-> | ->]; reader_step; unfold is_newline;
          rewrite ?Hlf, ?Hcr, ?Hd, ?Hqc; cbn [orb];
          (rewrite add_char_ok; [|cbn [state fields field]; simpl; lia]);
          cbn [state fields field]; rewrite ?Hlf, app_empty_l;
          by rewrite feed_app, Hp'. }
      destruct Ht as [-> | ->]; reader_step; csv_chars; reader_step; reflexivity.
Qed.

Lemma join_fields_cons f g (l : list string) :
  join_fields (f :: g :: l) = write_field f +:+ String delimiter (join_fields (g :: l)).
Proof. reflexivity. Qed.

(** The fields of a record, joined, up to the carriage return. *)
Lemma feed_join fs' st fs rows p :
  fs' ≠ [] ->
  st = START_FIELD ∨ (st = START_RECORD ∧ fs' ≠ [""]) ->
  Forall field_ok fs' ->
  feed (join_fields fs' +:+ String CR "") (MkReader st fs "") rows p
  = Some (MkReader EAT_CRNL (fs ++ fs') "", rows, true).
Proof.
  revert st fs p. induction fs' as [|f fs' IH]; intros st fs p Hne Hst Hok; [done|].
  apply Forall_cons in Hok as [Hf Hok].
  destruct fs' as [|g fs'].
  - cbn [join_fields].
    rewrite (feed_field f CR st fs rows p); [done| | |intros -> _|done].
    + destruct Hst as [->|[-> _]]; auto.
    + by right.
    + destruct Hst as [?|[_ ?]]; [done|]. intros ->. done.
  - rewrite join_fields_cons.
    assert ((write_field f +:+ String delimiter (join_fields (g :: fs'))) +:+ String CR ""
            = (write_field f +:+ String delimiter "")
                +:+ (join_fields (g :: fs') +:+ String CR "")) as ->.
    { by rewrite !app_assoc_s, !app_cons, app_empty_l. }
    rewrite feed_app.
    rewrite (feed_field f delimiter st fs rows p); [|destruct Hst as [->|[-> _]]; auto|by left|done|done].
    change (state_after delimiter) with START_FIELD.
    rewrite (IH START_FIELD (fs ++ [f]) true); [|done|by left|done].
    by rewrite <-app_assoc.
Qed.

(** A written record is read back as one record. *)
Lemma feed_writerow fs' rows p :
  Forall field_ok fs' ->
  feed (writerow fs') parse_reset rows p = Some (parse_reset, rows ++ [fs'], false).
Proof.
  intros Hok. unfold writerow, lineterminator, parse_reset.
  assert (fs' = [] ∨ fs' = [""] ∨ (fs' ≠ [] ∧ fs' ≠ [""])) as [->|[->|[H1 H2]]].
  { destruct fs' as [|[|c f] [|g l]]; auto. }
  - rewrite app_empty_l. reader_step. csv_chars. reader_step. csv_chars.
    reader_step. reflexivity.
  - reader_step. csv_chars. reader_step. csv_chars. reader_step. csv_chars.
    reader_step. csv_chars. reader_step. reflexivity.
  - assert (match fs' with
            | [EmptyString] => String quotechar (String quotechar (String CR (String LF "")))
            | _ => join_fields fs' +:+ String CR (String LF "")
            end = (join_fields fs' +:+ String CR "") +:+ String LF "") as ->.
    { rewrite app_assoc_s, app_cons, app_empty_l.
      destruct fs' as [|[|c f] [|g l]]; done. }
    rewrite feed_app, (feed_join fs' START_RECORD [] rows p); [|done|by right|done].
    reader_step. csv_chars. reader_step. reflexivity.
Qed.

(** The records written one after the other are read back in order. *)
Lemma feed_records (recs : list (list string)) rows :
  Forall (Forall field_ok) recs ->
  feed (Main.concat_strings (writerow <$> recs)) parse_reset rows false
  = Some (parse_reset, rows ++ recs, false).
Proof.
  revert rows. induction recs as [|fs' recs IH]; intros rows Hok.
  - by rewrite app_nil_r.
  - apply Forall_cons in Hok as [Hf Hok].
    rewrite fmap_cons. cbn [Main.concat_strings].
    rewrite feed_app, feed_writerow by done. rewrite IH by done.
    by rewrite <-app_assoc.
Qed.

Lemma reader_records (recs : list (list string)) :
  Forall (Forall field_ok) recs ->
  reader (Main.concat_strings (writerow <$> recs)) = Some recs.
Proof.
  intros Hok. unfold reader.
  rewrite <-(app_empty_r (Main.concat_strings _)), read_feed.
  rewrite feed_records by done. reflexivity.
Qed.

End csv_facts.

(* ================================================================== *)
(** * The aggregation claims *)

Section aggregation_claims.
Import Minio Main PyFloat.

Lemma size_where_none (p : string -> bool) (l : list object) :
  (forall obj, obj ∈ l -> p (object_name obj) = false) -> size_where p l = 0.
Proof.
  induction l as [|o l IH]; simpl; [done|]. intros H.
  rewrite (H o) by apply list_elem_of_here.
  apply IH. intros obj Hobj. apply H. by apply list_elem_of_further.
Qed.

Lemma over_quota_with_slash (l : list row) :
  Forall (fun r => PyStr.contains "/" (path r) = true) l ->
  over_quota l =
  (fun r => Violation (path r) (size_gb r) (size_human r))
  <$> filter (fun r => gt_int (size_gb r) QUOTA_GB = true) l.
Proof.
  induction 1 as [|r l Hr Hl IH]; [done|].
  rewrite filter_cons. unfold over_quota in *. cbn [omap list_omap].
  rewrite Hr. cbn [negb]. rewrite IH.
  destruct (gt_int (size_gb r) QUOTA_GB).
  - by rewrite decide_True.
  - by rewrite decide_False.
Qed.

(** C1. Two-level aggregation is a two-pass protocol.  The key of an
    object is its first two segments joined by a slash, or its only
    segment; the first pass collects the keys of its listing; after the
    second pass the dict has exactly the keys of the first pass, each
    with the sum of the sizes of the second-pass objects that map to
    it, and its total is the sum over the second-pass objects whose key
    was discovered: the others contribute nothing. *)
Theorem two_pass_aggregation (pass1 pass2 : list object) :
  (forall name,
     two_level_path name =
     match PyStr.split "/" name with
     | s0 :: s1 :: _ => s0 +:+ "/" +:+ s1
     | [s0] => s0
     | [] => ""
     end) ∧
  (forall k, k ∈ two_level_paths pass1 ↔ ∃ obj, obj ∈ pass1 ∧ key_of obj = k) ∧
  (forall k,
     path_sizes pass1 pass2 !! k =
     if bool_decide (k ∈ two_level_paths pass1)
     then Some (size_where (fun n => String.eqb (two_level_path n) k) pass2)
     else None) ∧
  dict_total (path_sizes pass1 pass2) =
  size_where (fun n => bool_decide (two_level_path n ∈ two_level_paths pass1)) pass2.
Proof.
  split; [exact two_level_path_segments|].
  split; [exact (elem_of_two_level_paths pass1)|].
  split; [exact (path_sizes_lookup pass1 pass2)|].
  unfold path_sizes.
  rewrite dict_total_foldl_add_size, dict_total_gset_to_gmap_0, dom_gset_to_gmap.
  lia.
Qed.

(** C10. A key discovered in the first pass is in the dict, initialised
    to 0, and has its row in the output whatever the second pass lists;
    when no object of the second pass maps to it, that row has
    [size_bytes] 0. *)
Theorem discovered_key_has_row (pass1 pass2 : list object) (k : string) :
  k ∈ two_level_paths pass1 ->
  gset_to_gmap 0 (two_level_paths pass1) !! k = Some 0 ∧
  (∃ v, path_sizes pass1 pass2 !! k = Some v ∧
        path_row (k, v) ∈ path_data (path_sizes pass1 pass2)) ∧
  ((forall obj, obj ∈ pass2 -> key_of obj ≠ k) ->
   ∃ r, r ∈ path_data (path_sizes pass1 pass2) ∧
        path r = bucket_name +:+ "/" +:+ k ∧ size_bytes r = 0).
Proof.
  intros Hk. split; [|split].
  - by apply lookup_gset_to_gmap_Some.
  - eexists. split.
    + rewrite path_sizes_lookup. by rewrite bool_decide_eq_true_2.
    + apply elem_of_path_data. do 2 eexists. split; [|done].
      rewrite path_sizes_lookup. by rewrite bool_decide_eq_true_2.
  - intros Hnone. exists (path_row (k, 0)). split; [|done].
    apply elem_of_path_data. exists k, 0. split; [|done].
    rewrite path_sizes_lookup, bool_decide_eq_true_2 by done.
    f_equal. apply size_where_none. intros obj Hobj.
    apply String.eqb_neq. by apply Hnone.
Qed.

Lemma discovered_key_has_row_witness :
  let dt := Datetime 2024 1 1 0 0 0 0 in
  let pass1 := [Object "raw/2023/a.parquet" 10 dt; Object "tmp/x" 5 dt] in
  let pass2 := [Object "raw/2023/a.parquet" 10 dt] in
  "tmp/x" ∈ two_level_paths pass1 ∧
  gset_to_gmap 0 (two_level_paths pass1) !! "tmp/x" = Some 0 ∧
  (∃ v, path_sizes pass1 pass2 !! "tmp/x" = Some v ∧
        path_row ("tmp/x", v) ∈ path_data (path_sizes pass1 pass2)) ∧
  ((forall obj, obj ∈ pass2 -> key_of obj ≠ "tmp/x") ->
   ∃ r, r ∈ path_data (path_sizes pass1 pass2) ∧
        path r = bucket_name +:+ "/" +:+ "tmp/x" ∧ size_bytes r = 0).
Proof.
  intros dt pass1 pass2.
  assert ("tmp/x" ∈ two_level_paths pass1) as Hk.
  { apply elem_of_two_level_paths. exists (Object "tmp/x" 5 dt).
    split; [|reflexivity]. apply list_elem_of_further, list_elem_of_here. }
  split; [exact Hk|].
  exact (discovered_key_has_row pass1 pass2 "tmp/x" Hk).
Defined.

(** C9. Every path-total row has the path ["cdm-lake/" + key] for a
    discovered key and so contains a slash; the quota check therefore
    keeps every path-total row whose [size_gb] exceeds the quota, and a
    key, single-segment keys included, is reported exactly when its
    bytes exceed 250 GB. *)
Theorem path_rows_have_separator (pass1 pass2 : list object) :
  let pd := path_data (path_sizes pass1 pass2) in
  Forall (fun r => PyStr.contains "/" (path r) = true ∧
                   ∃ k, k ∈ two_level_paths pass1 ∧ path r = bucket_name +:+ "/" +:+ k) pd ∧
  over_quota pd =
    (fun r => Violation (path r) (size_gb r) (size_human r))
    <$> filter (fun r => gt_int (size_gb r) QUOTA_GB = true) pd ∧
  (forall name, PyStr.contains "/" name = false -> two_level_path name = name) ∧
  (forall k v,
     path_sizes pass1 pass2 !! k = Some v ->
     (Violation (bucket_name +:+ "/" +:+ k) (truediv v (1024 ^ 3)) (format_size v)
        ∈ over_quota pd
      ↔ 250 * 1024 ^ 3 < v)).
Proof.
  intros pd.
  assert (Forall (fun r => PyStr.contains "/" (path r) = true) pd) as Hsep.
  { apply Forall_forall. intros r (k & v & _ & ->)%elem_of_path_data.
    apply path_row_contains_slash. }
  assert (over_quota pd =
          (fun r => Violation (path r) (size_gb r) (size_human r))
          <$> filter (fun r => gt_int (size_gb r) QUOTA_GB = true) pd) as Hoq.
  { by apply over_quota_with_slash. }
  split; [|split; [exact Hoq|split; [exact two_level_path_no_slash|]]].
  - apply Forall_forall. intros r Hr. split; [by eapply Forall_forall in Hsep|].
    apply elem_of_path_data in Hr as (k & v & Hkv & ->).
    exists k. split; [|done].
    rewrite <-(path_sizes_dom pass1 pass2). apply elem_of_dom. by eexists.
  - intros k v Hkv. rewrite Hoq, list_elem_of_fmap. split.
    + intros (r & Heq & Hr). apply list_elem_of_filter in Hr as [Hgt Hr].
      apply elem_of_path_data in Hr as (k' & v' & Hkv' & ->).
      injection Heq as Hpath Hgb _. apply String.app_inj in Hpath.
      assert (k' = k) as -> by congruence.
      assert (v' = v) as -> by congruence.
      unfold path_row in Hgt. cbn [size_gb snd] in Hgt.
      rewrite gt_int_truediv in Hgt by done. by apply bool_decide_eq_true in Hgt.
    + intros Hv. exists (path_row (k, v)). split; [done|].
      apply list_elem_of_filter. split; [|apply elem_of_path_data; by exists k, v].
      unfold path_row. cbn [size_gb snd].
      rewrite gt_int_truediv by done. by apply bool_decide_eq_true.
Qed.

End aggregation_claims.

(* ================================================================== *)
(** * The size formatter *)

Section format_claims.
Import Main PyFloat.

Lemma two_digits_length (n : Z) : 0 <= n < 100 -> String.length (two_digits n) = 2%nat.
Proof.
  intros Hn. rewrite <-(Z2Nat.id n) by lia.
  assert (Z.to_nat n < 100)%nat as Hlt by lia.
  generalize dependent (Z.to_nat n). clear. intros k Hk.
  do 100 (destruct k as [|k]; [reflexivity|]). lia.
Qed.

Lemma format_size_GB (size_bytes : Z) :
  2 ^ 30 <= size_bytes ->
  format_size size_bytes =
  decimal2 (round_half_even (100 * round53 size_bytes) (1024 ^ 3)) +:+ " GB".
Proof.
  intros Hs. unfold format_size.
  rewrite ge_int_truediv, bool_decide_eq_true_2 by (done || lia).
  by rewrite fmt_2f_truediv by lia.
Qed.

Lemma format_size_MB (size_bytes : Z) :
  0 <= size_bytes < 2 ^ 30 ->
  format_size size_bytes =
  decimal2 (round_half_even (100 * size_bytes) (1024 ^ 2)) +:+ " MB".
Proof.
  intros Hs. unfold format_size.
  rewrite ge_int_truediv, bool_decide_eq_false_2 by (done || lia).
  rewrite fmt_2f_truediv by lia. by rewrite round53_exact by lia.
Qed.

(** C3, as the code has it.  For a byte count that is not negative (and
    in the binary64 range, below [2 ^ 1024]) the formatter prints the size in GB when it is at least 1 GB
    (1073741824 bytes) and in MB otherwise, as the numeral with two
    decimals that is nearest to the binary64 quotient (the quotient is
    exact below [2 ^ 53] bytes).  With 1 GB being [1024 ^ 3] bytes,
    1572864000 bytes are printed as "1.46 GB"; 1610612736 bytes as
    "1.50 GB", 10485760 bytes as "10.00 MB" and 1073741824 bytes as
    "1.00 GB". *)
Theorem format_size_spec (size_bytes : Z) :
  0 <= size_bytes < 2 ^ 1024 ->
  (∃ h, 0 <= h ∧ String.length (two_digits (h mod 100)) = 2%nat ∧
     if bool_decide (1073741824 <= size_bytes)
     then format_size size_bytes = decimal2 h +:+ " GB" ∧
          2 * Z.abs (100 * round53 size_bytes - h * 1024 ^ 3) <= 1024 ^ 3
     else format_size size_bytes = decimal2 h +:+ " MB" ∧
          2 * Z.abs (100 * size_bytes - h * 1024 ^ 2) <= 1024 ^ 2) ∧
  (size_bytes < 2 ^ 53 -> round53 size_bytes = size_bytes) ∧
  format_size 1572864000 = "1.46 GB" ∧
  format_size 1610612736 = "1.50 GB" ∧
  format_size 10485760 = "10.00 MB" ∧
  format_size 1073741824 = "1.00 GB".
Proof.
  intros [Hs _]. split; [|split; [intros; apply round53_exact; lia|by vm_compute]].
  case_bool_decide as Hgb.
  - exists (round_half_even (100 * round53 size_bytes) (1024 ^ 3)).
    pose proof (round53_nonneg size_bytes Hs).
    assert (0 <= round_half_even (100 * round53 size_bytes) (1024 ^ 3))
      by (apply round_half_even_nonneg; lia).
    split; [done|]. split; [apply two_digits_length, Z.mod_pos_bound; lia|].
    split; [by apply format_size_GB|].
    apply (round_half_even_near (100 * round53 size_bytes) (1024 ^ 3)).
  - exists (round_half_even (100 * size_bytes) (1024 ^ 2)).
    assert (0 <= round_half_even (100 * size_bytes) (1024 ^ 2))
      by (apply round_half_even_nonneg; lia).
    split; [done|]. split; [apply two_digits_length, Z.mod_pos_bound; lia|].
    split; [apply format_size_MB; lia|].
    apply (round_half_even_near (100 * size_bytes) (1024 ^ 2)).
Qed.

Lemma format_size_spec_witness :
  0 <= 1572864000 < 2 ^ 1024 ∧
  (∃ h, 0 <= h ∧ String.length (two_digits (h mod 100)) = 2%nat ∧
     if bool_decide (1073741824 <= 1572864000)
     then format_size 1572864000 = decimal2 h +:+ " GB" ∧
          2 * Z.abs (100 * round53 1572864000 - h * 1024 ^ 3) <= 1024 ^ 3
     else format_size 1572864000 = decimal2 h +:+ " MB" ∧
          2 * Z.abs (100 * 1572864000 - h * 1024 ^ 2) <= 1024 ^ 2) ∧
  (1572864000 < 2 ^ 53 -> round53 1572864000 = 1572864000) ∧
  format_size 1572864000 = "1.46 GB" ∧
  format_size 1610612736 = "1.50 GB" ∧
  format_size 10485760 = "10.00 MB" ∧
  format_size 1073741824 = "1.00 GB".
Proof.
  assert (0 <= 1572864000 < 2 ^ 1024) as Hrange by (split; [lia|by vm_compute]).
  split; [exact Hrange|]. exact (format_size_spec 1572864000 Hrange).
Defined.

(** C3 as stated fails: 1572864000 bytes are 1500 times [1024 ^ 2]
    bytes, less than one and a half times [1024 ^ 3], and the formatter
    prints "1.46 GB" for them, not "1.50 GB". *)
Lemma format_size_1572864000 :
  format_size 1572864000 = "1.46 GB" ∧ format_size 1572864000 ≠ "1.50 GB".
Proof. split; [by vm_compute|]. by vm_compute. Qed.

End format_claims.

(* ================================================================== *)
(** * The quota evaluation *)

Section quota_claims.
Import Main PyFloat.

Lemma float_ltb_lt (x y : pyfloat) : ltb x y = true <-> (x < y)%Q.
Proof.
  unfold ltb. rewrite negb_true_iff. split.
  - intros H. apply Qnot_le_lt. intros Hle. apply Qle_bool_iff in Hle. congruence.
  - intros H. destruct (Qle_bool y x) eqn:E; [|done].
    apply Qle_bool_iff in E. by apply Qlt_not_le in H.
Qed.

Lemma float_ltb_ge (x y : pyfloat) : ltb x y = false <-> (y <= x)%Q.
Proof. unfold ltb. rewrite negb_false_iff. apply Qle_bool_iff. Qed.

Lemma float_ltb_asym (x y : pyfloat) : ltb x y = true -> ltb y x = false.
Proof. rewrite float_ltb_lt, float_ltb_ge. apply Qlt_le_weak. Qed.

Lemma float_ltb_negtrans (x y z : pyfloat) :
  ltb x y = false -> ltb y z = false -> ltb x z = false.
Proof. rewrite !float_ltb_ge. intros H1 H2. by eapply Qle_trans. Qed.

Lemma gt_int_lt (x : pyfloat) (n : Z) : gt_int x n = true <-> (inject_Z n < x)%Q.
Proof. apply (float_ltb_lt (inject_Z n) x). Qed.

(** The float subtraction is exact when the difference needs no
    rounding. *)
Lemma sub_int_exact (x : pyfloat) (n : Z) :
  Z.abs (Qnum x - n * Zpos (Qden x)) < 2 ^ 53 ->
  (sub_int x n == x - inject_Z n)%Q.
Proof.
  intros H. unfold sub_int. rewrite round53_exact by done.
  unfold Qeq, Qminus, Qplus, Qopp, inject_Z. simpl. lia.
Qed.

Lemma elem_of_over_quota (rows : list row) (v : violation) :
  v ∈ over_quota rows ↔
  ∃ r, r ∈ rows ∧ PyStr.contains "/" (path r) = true ∧
       (inject_Z QUOTA_GB < size_gb r)%Q ∧
       v = Violation (path r) (size_gb r) (size_human r).
Proof.
  unfold over_quota. rewrite list_elem_of_omap. split.
  - intros (r & Hr & Hv). exists r. split; [done|].
    destruct (PyStr.contains "/" (path r)); [|done]. simpl in Hv.
    destruct (gt_int (size_gb r) QUOTA_GB) eqn:Hgt; [|done].
    split; [done|]. split; [by apply gt_int_lt|congruence].
  - intros (r & Hr & Hsep & Hgt & ->). exists r. split; [done|].
    rewrite Hsep. simpl. apply gt_int_lt in Hgt. by rewrite Hgt.
Qed.

Lemma report_fst (found : list violation) :
  (report found).*1 = PySort.sorted_key_reverse ltb v_size_gb found.
Proof.
  unfold report. rewrite <-list_fmap_compose. apply list_fmap_id.
Qed.

(** ** The evaluator of [manual_test/quota.py] *)

Lemma quota_report_fst (found : list Quota.violation) :
  (Quota.report found).*1 = PySort.sorted_key_reverse ltb Quota.v_size_gb found.
Proof.
  unfold Quota.report. rewrite <-list_fmap_compose. apply list_fmap_id.
Qed.

Lemma mapM_Ok {A B : Type} (f : A -> Py.result B) (l : list A) (ys : list B) :
  Py.mapM f l = Py.Ok ys ↔ Forall2 (fun x y => f x = Py.Ok y) l ys.
Proof.
  revert ys. induction l as [|x l IH]; intros ys; cbn [Py.mapM].
  - split.
    + intros [= <-]. constructor.
    + by intros ->%Forall2_nil_inv_l.
  - split.
    + destruct (f x) as [y|e] eqn:Hx; cbn [Py.bind]; [|done].
      destruct (Py.mapM f l) as [ys'|e] eqn:Hl; cbn [Py.bind]; [|done].
      intros [= <-]. constructor; [done|]. by apply IH.
    + intros (y & ys' & Hx & Hl & ->)%Forall2_cons_inv_l.
      apply IH in Hl. by rewrite Hx, Hl.
Qed.

Lemma check_row_Some (float : string -> option pyfloat) (d : Csv.dict)
    (v : Quota.violation) :
  Quota.check_row float d = Py.Ok (Some v) ↔ violates float d v.
Proof.
  unfold Quota.check_row, violates, mbind, result_bind. split.
  - destruct (Quota.getitem d "path") as [[p| |]|]; cbn [Py.bind]; try done.
    destruct (PyStr.contains "/" p) eqn:Hsep; cbn [negb]; [|done].
    destruct (Quota.getitem d "size_gb") as [[s| |]|]; cbn [Py.bind]; try done.
    destruct (float s) as [x|] eqn:Hx; [|done].
    destruct (gt_int x Quota.QUOTA_GB) eqn:Hgt; [|done].
    destruct (Quota.getitem d "size_human") as [h|]; cbn [Py.bind]; [|done].
    intros [= <-]. exists p, s, x, h. repeat (split; [done|]).
    split; [by apply gt_int_lt|done].
  - intros (p & s & x & h & -> & Hsep & -> & Hx & Hgt & -> & ->).
    cbn [Py.bind]. rewrite Hsep. cbn [negb]. rewrite Hx.
    apply (gt_int_lt x 250) in Hgt. unfold Quota.QUOTA_GB. by rewrite Hgt.
Qed.

Lemma check_row_readable (float : string -> option pyfloat) (d : Csv.dict) :
  readable float d -> ∃ o, Quota.check_row float d = Py.Ok o.
Proof.
  intros (p & Hp & Hrest). unfold Quota.check_row, mbind, result_bind.
  rewrite Hp. cbn [Py.bind].
  destruct (PyStr.contains "/" p); cbn [negb]; [|by eexists].
  destruct Hrest as (s & x & Hs & Hx & Hh); [done|].
  rewrite Hs. cbn [Py.bind]. rewrite Hx.
  destruct (gt_int x Quota.QUOTA_GB) eqn:Hgt; [|by eexists].
  destruct Hh as [h ->]; [by apply (gt_int_lt x 250)|]. by eexists.
Qed.

Lemma quota_over_quota_returns (float : string -> option pyfloat)
    (dicts : list Csv.dict) :
  Forall (readable float) dicts -> ∃ found, Quota.over_quota float dicts = Py.Ok found.
Proof.
  intros Hread. unfold Quota.over_quota.
  assert (∃ os, Py.mapM (Quota.check_row float) dicts = Py.Ok os) as [os ->].
  { induction Hread as [|d dicts Hd _ [os IH]]; [by eexists|].
    destruct (check_row_readable float d Hd) as [o Ho].
    cbn [Py.mapM]. rewrite Ho, IH. by eexists. }
  by eexists.
Qed.

Lemma elem_of_quota_over_quota (float : string -> option pyfloat)
    (dicts : list Csv.dict) (found : list Quota.violation) (v : Quota.violation) :
  Quota.over_quota float dicts = Py.Ok found ->
  (v ∈ found ↔ ∃ d, d ∈ dicts ∧ violates float d v).
Proof.
  unfold Quota.over_quota.
  destruct (Py.mapM (Quota.check_row float) dicts) as [os|e] eqn:Hos; [|done].
  cbn [Py.bind]. intros [= <-]. apply mapM_Ok in Hos.
  rewrite list_elem_of_omap. split.
  - intros (o & Ho & Hv). cbn in Hv. subst o.
    apply list_elem_of_lookup in Ho as [i Hi].
    destruct (Forall2_lookup_r _ _ _ _ _ Hos Hi) as (d & Hd & Hcheck).
    exists d. split; [by eapply list_elem_of_lookup_2|]. by apply check_row_Some.
  - intros (d & Hd & Hv). apply check_row_Some in Hv.
    apply list_elem_of_lookup in Hd as [i Hi].
    destruct (Forall2_lookup_l _ _ _ _ _ Hos Hi) as (o & Ho & Hcheck).
    exists o. split; [by eapply list_elem_of_lookup_2|].
    rewrite Hv in Hcheck. by injection Hcheck as <-.
Qed.

(** C2. Both quota evaluations, the one of [main.py] on the rows of its
    run and the one of [manual_test/quota.py] on the rows it reads from
    a snapshot, keep the rows with a separator in their path whose
    [size_gb] is strictly greater than 250, report them in descending
    order of [size_gb], and give each the overage [size_gb - 250] (the
    binary64 difference, which is the exact difference whenever that is
    a float).  The manual check returns whenever it can read the rows:
    the [size_gb] of a row without separator is not even converted.  On
    the three rows of the example both report the one violation
    [cdm-lake/a/b] with overage 50.0. *)
Theorem quota_evaluation (float : string -> option pyfloat) (rows : list row)
    (dicts : list Csv.dict) :
  let found := over_quota rows in
  let reported := report found in
  (forall v, v ∈ found ↔
     ∃ r, r ∈ rows ∧ PyStr.contains "/" (path r) = true ∧
          (inject_Z 250 < size_gb r)%Q ∧
          v = Violation (path r) (size_gb r) (size_human r)) ∧
  reported.*1 ≡ₚ found ∧
  StronglySorted (fun a b => (v_size_gb b <= v_size_gb a)%Q) reported.*1 ∧
  Forall (fun line =>
            snd line = sub_int (v_size_gb (fst line)) 250 ∧
            (Z.abs (Qnum (v_size_gb (fst line)) - 250 * Zpos (Qden (v_size_gb (fst line))))
               < 2 ^ 53 ->
             (snd line == v_size_gb (fst line) - inject_Z 250)%Q)) reported ∧
  (forall b1 b2 b3 m1 m2 m3 h1 h2 h3,
     report (over_quota [Row "cdm-lake/a/b" b1 m1 (inject_Z 300) h1;
                         Row "cdm-lake" b2 m2 (inject_Z 500) h2;
                         Row "cdm-lake/c/d" b3 m3 (inject_Z 100) h3])
     = [(Violation "cdm-lake/a/b" (inject_Z 300) h1, inject_Z 50)]) ∧
  float_repr (inject_Z 50) = "50.0" ∧ fmt_2f (inject_Z 50) = "50.00" ∧
  (Forall (readable float) dicts ->
   ∃ found', Quota.over_quota float dicts = Py.Ok found') ∧
  (forall found',
     Quota.over_quota float dicts = Py.Ok found' ->
     (forall v, v ∈ found' ↔
        ∃ d p s x h,
          d ∈ dicts ∧
          Quota.getitem d "path" = Py.Ok (Csv.VStr p) ∧
          PyStr.contains "/" p = true ∧
          Quota.getitem d "size_gb" = Py.Ok (Csv.VStr s) ∧ float s = Some x ∧
          (inject_Z 250 < x)%Q ∧
          Quota.getitem d "size_human" = Py.Ok h ∧
          v = Quota.Violation p x h) ∧
     (Quota.report found').*1 ≡ₚ found' ∧
     StronglySorted (fun a b => (Quota.v_size_gb b <= Quota.v_size_gb a)%Q)
                    (Quota.report found').*1 ∧
     Forall (fun line =>
               snd line = sub_int (Quota.v_size_gb (fst line)) 250 ∧
               (Z.abs (Qnum (Quota.v_size_gb (fst line))
                       - 250 * Zpos (Qden (Quota.v_size_gb (fst line)))) < 2 ^ 53 ->
                (snd line == Quota.v_size_gb (fst line) - inject_Z 250)%Q))
            (Quota.report found')) ∧
  (forall s1 s2 s3 b1 b2 b3 m1 m2 m3 h1 h2 h3,
     float s1 = Some (inject_Z 300) -> float s3 = Some (inject_Z 100) ->
     let example :=
       [[(Some "path", Csv.VStr "cdm-lake/a/b"); (Some "size_bytes", Csv.VStr b1);
         (Some "size_mb", Csv.VStr m1); (Some "size_gb", Csv.VStr s1);
         (Some "size_human", Csv.VStr h1)];
        [(Some "path", Csv.VStr "cdm-lake"); (Some "size_bytes", Csv.VStr b2);
         (Some "size_mb", Csv.VStr m2); (Some "size_gb", Csv.VStr s2);
         (Some "size_human", Csv.VStr h2)];
        [(Some "path", Csv.VStr "cdm-lake/c/d"); (Some "size_bytes", Csv.VStr b3);
         (Some "size_mb", Csv.VStr m3); (Some "size_gb", Csv.VStr s3);
         (Some "size_human", Csv.VStr h3)]] in
     Quota.over_quota float example
       = Py.Ok [Quota.Violation "cdm-lake/a/b" (inject_Z 300) (Csv.VStr h1)] ∧
     Quota.report [Quota.Violation "cdm-lake/a/b" (inject_Z 300) (Csv.VStr h1)]
       = [(Quota.Violation "cdm-lake/a/b" (inject_Z 300) (Csv.VStr h1), inject_Z 50)]).
Proof.
  intros found reported.
  split; [exact (elem_of_over_quota rows)|].
  split; [|split; [|split; [|split; [by intros|split; [by vm_compute|split;
    [by vm_compute|split; [apply quota_over_quota_returns|split]]]]]]].
  - unfold reported. rewrite report_fst. apply sorted_Permutation.
  - unfold reported. rewrite report_fst.
    eapply StronglySorted_weaken;
      [|apply sorted_StronglySorted;
        [intros x y; apply float_ltb_asym
        |intros x y z H1 H2; exact (float_ltb_negtrans _ _ _ H2 H1)]].
    intros a b Hab. unfold precedes in Hab. by apply float_ltb_ge in Hab.
  - unfold reported, report. apply Forall_fmap, Forall_forall.
    intros v _. simpl. split; [done|]. apply sub_int_exact.
  - intros found' Hfound. split; [|split; [|split]].
    + intros v. rewrite (elem_of_quota_over_quota float dicts found' v Hfound).
      unfold violates. split.
      * intros (d & Hd & p & s & x & h & H). by exists d, p, s, x, h.
      * intros (d & p & s & x & h & Hd & H). exists d. split; [done|].
        by exists p, s, x, h.
    + rewrite quota_report_fst. apply sorted_Permutation.
    + rewrite quota_report_fst.
      eapply StronglySorted_weaken;
        [|apply sorted_StronglySorted;
          [intros x y; apply float_ltb_asym
          |intros x y z H1 H2; exact (float_ltb_negtrans _ _ _ H2 H1)]].
      intros a b Hab. unfold precedes in Hab. by apply float_ltb_ge in Hab.
    + unfold Quota.report. apply Forall_fmap, Forall_forall.
      intros v _. simpl. split; [done|]. apply sub_int_exact.
  - intros s1 s2 s3 b1 b2 b3 m1 m2 m3 h1 h2 h3 H300 H100 example.
    split; [|by vm_compute].
    unfold example, Quota.over_quota, Quota.check_row, mbind, result_bind.
    cbn [Py.mapM].
    change (Quota.getitem _ "path") with (Py.Ok (Csv.VStr "cdm-lake/a/b")) at 1.
    change (Quota.getitem _ "size_gb") with (Py.Ok (Csv.VStr s1)) at 1.
    change (Quota.getitem _ "size_human") with (Py.Ok (Csv.VStr h1)) at 1.
    change (Quota.getitem _ "path") with (Py.Ok (Csv.VStr "cdm-lake")) at 1.
    change (Quota.getitem _ "path") with (Py.Ok (Csv.VStr "cdm-lake/c/d")) at 1.
    change (Quota.getitem _ "size_gb") with (Py.Ok (Csv.VStr s3)) at 2.
    cbn [Py.bind].
    change (PyStr.contains "/" "cdm-lake/a/b") with true.
    change (PyStr.contains "/" "cdm-lake") with false.
    change (PyStr.contains "/" "cdm-lake/c/d") with true.
    cbn [negb Py.bind]. rewrite H300, H100.
    change (gt_int (inject_Z 300) Quota.QUOTA_GB) with true.
    change (gt_int (inject_Z 100) Quota.QUOTA_GB) with false.
    reflexivity.
Qed.

End quota_claims.

(* ================================================================== *)
(** * The snapshot of a run and its writes *)

Section run_claims.
Import Minio Main.

Lemma run_cases (w : env) (l : listings) (c : clock) :
  run w l c =
  match local_write w with
  | Some e => ([], Py.Raise e)
  | None =>
      match put w with
      | Some e => ([local_event l], Py.Raise e)
      | None => ([local_event l; durable_event l c; slack_event l c (slack w)], Py.Ok tt)
      end
  end.
Proof.
  unfold run, seq, perform, except_slack, local_event, durable_event, slack_event,
    run_rows, Utf8.encode.
  destruct (local_write w), (put w), (slack w); reflexivity.
Qed.



(** C6, as the code has it.  A run is complete exactly when the local
    write and the durable write both succeed (a failure of the
    notification does not matter), and then the durable write has
    followed the local one.  A failure of the local write is fatal: its
    exception ends the run before the durable write is attempted.  A
    failure of the durable write ends the run after the local write. *)
Theorem run_writes (w : env) (l : listings) (c : clock) :
  (snd (run w l c) = Py.Ok tt ↔ local_write w = None ∧ put w = None) ∧
  (snd (run w l c) = Py.Ok tt ->
   fst (run w l c) = [local_event l; durable_event l c; slack_event l c (slack w)]) ∧
  (forall e, local_write w = Some e -> run w l c = ([], Py.Raise e)) ∧
  (forall e, local_write w = None -> put w = Some e ->
             run w l c = ([local_event l], Py.Raise e)).
Proof.
  rewrite run_cases.
  destruct (local_write w) as [e1|], (put w) as [e2|]; simpl;
    repeat split; intros; simplify_eq; try done; by destruct_and?.
Qed.

(** C6 as stated fails: with the backend ready to accept the durable
    write, a local write that raises [OSError] ends the run with that
    exception and nothing is written to the backend. *)
Lemma local_write_failure_prevents_durable_write :
  run (Env (Some Py.OSError) None None)
      (Listings [("cdm-lake", [Object "a/b/c" 5 (Datetime 2024 1 1 0 0 0 0)])]
                [Object "a/b/c" 5 (Datetime 2024 1 1 0 0 0 0)]
                [Object "a/b/c" 5 (Datetime 2024 1 1 0 0 0 0)])
      (Clock 3 "2024-01-02" "2024-01-02 00:00:03")
  = ([], Py.Raise Py.OSError).
Proof. reflexivity. Qed.

End run_claims.

(* ================================================================== *)
(** * The viewer queries *)

Section viewer_claims.
Import Minio App.

Lemma list_ltb_total (a b : list Z) :
  length a = length b -> list_ltb a b = false -> list_ltb b a = false -> a = b.
Proof.
  revert b. induction a as [|x a IH]; intros [|y b]; simpl; try done.
  intros [= Hlen].
  destruct (Z.ltb_spec x y), (Z.ltb_spec y x), (Z.eqb_spec x y), (Z.eqb_spec y x);
    simpl; try done; try lia.
  intros Hab Hba. subst y. f_equal. by apply IH.
Qed.

Lemma datetime_ltb_total (a b : datetime) :
  datetime_ltb a b = false -> a ≠ b -> datetime_ltb b a = true.
Proof.
  intros Hab Hne. destruct (datetime_ltb b a) eqn:Hba; [done|].
  destruct Hne. unfold datetime_ltb in *.
  pose proof (list_ltb_total (datetime_key a) (datetime_key b) eq_refl Hab Hba) as Hkey.
  destruct a, b. unfold datetime_key in Hkey. simpl in Hkey. congruence.
Qed.

Lemma get_object_missing (st : store) (file : string) :
  (forall b, b ∈ st -> blob_name b ≠ file) ->
  get_object st file = Py.Raise (Py.S3Error "NoSuchKey").
Proof.
  intros Hmiss. unfold get_object.
  destruct (List.find _ st) as [b|] eqn:E; [|done].
  apply List.find_some in E as [Hb Hname].
  apply String.eqb_eq in Hname. destruct (Hmiss b); [|done].
  by apply list_elem_of_In.
Qed.

(** C7, as the code has it.  A fetch never escapes the route as an
    exception: an empty file name is answered with status 400, and any
    failure to read the snapshot (the object is missing, its bytes are
    not UTF-8, the csv reader rejects its text) is answered with status
    500 and the text of the exception; otherwise the parsed rows are
    returned. *)
Theorem get_csv_responses (st : store) (file : string) :
  (file = "" -> get_csv st file = HTTPException 400 (Text "No file specified")) ∧
  (file ≠ "" ->
   (forall e, read_csv_from_minio st file = Py.Raise e ->
              get_csv st file = HTTPException 500 (StrOf e)) ∧
   (forall rows, read_csv_from_minio st file = Py.Ok rows ->
                 get_csv st file = Json rows) ∧
   ((forall b, b ∈ st -> blob_name b ≠ file) ->
    get_csv st file = HTTPException 500 (StrOf (Py.S3Error "NoSuchKey"))) ∧
   (forall bytes, get_object st file = Py.Ok bytes -> Utf8.valid bytes = false ->
                  get_csv st file = HTTPException 500 (StrOf Py.UnicodeDecodeError)) ∧
   (forall bytes, get_object st file = Py.Ok bytes -> Utf8.valid bytes = true ->
                  Csv.DictReader bytes = None ->
                  get_csv st file = HTTPException 500 (StrOf Py.CsvError))).
Proof.
  split; [by intros ->|].
  intros Hfile. unfold get_csv.
  destruct (String.eqb_spec file "") as [|_]; [done|].
  split; [by intros e ->|]. split; [by intros rows ->|].
  unfold read_csv_from_minio, Utf8.decode. split; [|split].
  - intros Hmiss. by rewrite get_object_missing.
  - intros bytes -> Hbad. simpl. by rewrite Hbad.
  - intros bytes -> Hgood Hcsv. simpl. rewrite Hgood. simpl. by rewrite Hcsv.
Qed.

(** C7 as stated fails: the fetch of a snapshot that is missing is
    answered with status 500, which is neither a "not found" (404) nor
    a "bad request" (400) response; so is the fetch of a snapshot whose
    content cannot be decoded. *)
Lemma missing_snapshot_is_500 :
  get_csv [] "metrics/2024-01-01_3s.csv"
    = HTTPException 500 (StrOf (Py.S3Error "NoSuchKey")) ∧
  get_csv [Blob "metrics/2024-01-01_3s.csv" (String (ascii_of_nat 255) "")
                (Datetime 2024 1 1 0 0 3 0)] "metrics/2024-01-01_3s.csv"
    = HTTPException 500 (StrOf Py.UnicodeDecodeError) ∧
  (forall d, get_csv [] "metrics/2024-01-01_3s.csv" ≠ HTTPException 404 d) ∧
  (forall d, get_csv [] "metrics/2024-01-01_3s.csv" ≠ HTTPException 400 d).
Proof. repeat split; try reflexivity; by intros d. Qed.

Lemma file_of_blob_sorted (l : list blob) :
  PySort.sorted_key_reverse String.ltb last_modified (file_of_blob <$> l)
  = file_of_blob
    <$> PySort.sorted_key_reverse String.ltb (fun b => isoformat (modified b)) l.
Proof. unfold PySort.sorted_key_reverse. by rewrite sorted_fmap. Qed.

(** C8. For a limit between 1 and 20 (5 when the query gives none) the
    catalog is the first [limit] entries of the snapshots of the store
    (the objects right under [metrics/] whose name ends in [.csv])
    arranged in descending order of [last_modified], which is the
    descending order of their modification times, strictly descending
    when the times are distinct: with five snapshots of distinct times
    and limit 3, the three most recently modified, most recent first. *)
Theorem list_recent (st : store) (limit : Z) :
  1 <= limit <= 20 ->
  Forall (fun b => valid_datetime (modified b)) st ->
  ∃ bs : list blob,
    bs ≡ₚ filter is_snapshot st ∧
    StronglySorted (fun a b => String.ltb (last_modified a) (last_modified b) = false)
                   (file_of_blob <$> bs) ∧
    StronglySorted (fun a b => datetime_ltb (modified a) (modified b) = false) bs ∧
    (NoDup (modified <$> filter is_snapshot st) ->
     StronglySorted (fun a b => datetime_ltb (modified b) (modified a) = true) bs) ∧
    get_metrics_files st limit = Py.Ok (file_of_blob <$> take (Z.to_nat limit) bs) ∧
    (length (take (Z.to_nat limit) bs) <= Z.to_nat limit)%nat ∧
    list_files st (Some limit) = Json (file_of_blob <$> take (Z.to_nat limit) bs) ∧
    list_files st None = list_files st (Some 5).
Proof.
  intros Hlimit Hvalid.
  set (snaps := filter is_snapshot st).
  set (bs := PySort.sorted_key_reverse String.ltb (fun b => isoformat (modified b)) snaps).
  assert (bs ≡ₚ snaps) as Hperm by apply sorted_Permutation.
  assert (Forall (fun b => valid_datetime (modified b)) bs) as Hbs.
  { rewrite Hperm. apply Forall_forall. intros b Hb.
    apply list_elem_of_filter in Hb as [_ Hb]. by eapply Forall_forall in Hvalid. }
  assert (StronglySorted
            (fun a b => String.ltb (isoformat (modified a)) (isoformat (modified b)) = false)
            bs) as Hsorted.
  { apply (sorted_StronglySorted
             (fun a b => String.ltb (isoformat (modified b)) (isoformat (modified a)))).
    - intros x y. apply ltb_asym.
    - intros x y z H1 H2. exact (ltb_negtrans _ _ _ H2 H1). }
  assert (StronglySorted (fun a b => datetime_ltb (modified a) (modified b) = false) bs)
    as Htimes.
  { eapply StronglySorted_weaken_Forall; [|exact Hbs|exact Hsorted].
    intros x y Hx Hy Hxy. simpl in *. by rewrite <-isoformat_ltb. }
  assert (get_metrics_files st limit = Py.Ok (file_of_blob <$> take (Z.to_nat limit) bs))
    as Hget.
  { rewrite get_metrics_files_eq, slice_to_take by lia.
    fold snaps. by rewrite file_of_blob_sorted, fmap_take. }
  exists bs. split; [exact Hperm|]. split; [|split; [exact Htimes|split; [|split; [exact Hget|split; [|split]]]]].
  - eapply StronglySorted_fmap; [|exact Hsorted]. by intros x y.
  - intros Hnodup.
    eapply StronglySorted_weaken;
      [|apply (StronglySorted_NoDup_fmap _ modified _ Htimes); by rewrite Hperm].
    intros x y [Hxy Hne]. simpl in *. apply datetime_ltb_total; [done|congruence].
  - rewrite length_take. lia.
  - unfold list_files. simpl.
    rewrite (proj2 (Z.leb_le 1 limit)), (proj2 (Z.leb_le limit 20)) by lia.
    simpl. by rewrite Hget.
  - reflexivity.
Qed.

Lemma five_snapshots_valid :
  Forall (fun b => valid_datetime (modified b)) five_snapshots.
Proof. repeat constructor; simpl; lia. Qed.

Lemma list_recent_witness :
  1 <= 3 <= 20 ∧
  Forall (fun b => valid_datetime (modified b)) five_snapshots ∧
  ∃ bs : list blob,
    bs ≡ₚ filter is_snapshot five_snapshots ∧
    StronglySorted (fun a b => String.ltb (last_modified a) (last_modified b) = false)
                   (file_of_blob <$> bs) ∧
    StronglySorted (fun a b => datetime_ltb (modified a) (modified b) = false) bs ∧
    (NoDup (modified <$> filter is_snapshot five_snapshots) ->
     StronglySorted (fun a b => datetime_ltb (modified b) (modified a) = true) bs) ∧
    get_metrics_files five_snapshots 3 = Py.Ok (file_of_blob <$> take (Z.to_nat 3) bs) ∧
    (length (take (Z.to_nat 3) bs) <= Z.to_nat 3)%nat ∧
    list_files five_snapshots (Some 3) = Json (file_of_blob <$> take (Z.to_nat 3) bs) ∧
    list_files five_snapshots None = list_files five_snapshots (Some 5).
Proof.
  assert (1 <= 3 <= 20) as Hlimit by lia.
  split; [exact Hlimit|]. split; [exact five_snapshots_valid|].
  exact (list_recent five_snapshots 3 Hlimit five_snapshots_valid).
Defined.

(** The catalog of the five snapshots, limit 3. *)
Example five_snapshots_limit_3 :
  get_metrics_files five_snapshots 3 =
  Py.Ok [FileInfo "metrics/2024-03-05_38s.csv" "2024-03-05T06:00:38.120000+00:00" (Some 4);
         FileInfo "metrics/2024-03-04_39s.csv" "2024-03-04T06:00:39+00:00" (Some 4);
         FileInfo "metrics/2024-03-03_37s.csv" "2024-03-03T06:00:37.000005+00:00" (Some 4)].
Proof. reflexivity. Qed.

End viewer_claims.

(* ================================================================== *)
(** * Further properties: the snapshot read back *)

Section snapshot_round_trip.
Import Minio Main Csv.

Lemma fieldnames_ok : Forall field_ok fieldnames.
Proof. repeat constructor; by vm_compute. Qed.

Lemma filter_not_blank (rows : list row) :
  filter (fun rec => is_blank rec = false) (row_fields <$> rows) = row_fields <$> rows.
Proof.
  induction rows as [|r rows IH]; [done|].
  rewrite fmap_cons, filter_cons_True by done. by rewrite IH.
Qed.

Lemma reader_csv_text (rows : list row) :
  Forall (fun r => Forall field_ok (row_fields r)) rows ->
  reader (csv_text rows) = Some (fieldnames :: (row_fields <$> rows)).
Proof.
  intros Hok.
  assert (csv_text rows
          = concat_strings (writerow <$> (fieldnames :: (row_fields <$> rows)))) as ->.
  { unfold csv_text. rewrite fmap_cons, <-list_fmap_compose. reflexivity. }
  apply reader_records. constructor; [apply fieldnames_ok|].
  by apply Forall_fmap.
Qed.

Lemma dictreader_csv_text (rows : list row) :
  Forall (fun r => Forall field_ok (row_fields r)) rows ->
  DictReader (csv_text rows) = Some (row_dict <$> rows).
Proof.
  intros Hok. unfold DictReader. rewrite reader_csv_text, filter_not_blank by done.
  f_equal. rewrite <-list_fmap_compose. by apply list_fmap_ext.
Qed.

(** X1. The text of a snapshot, read by [csv.reader], is the header
    record followed by the records of the rows in order, and
    [csv.DictReader] returns for every row the dict of the five strings
    that were written, whatever commas, quotes and line ends the fields
    hold, provided no field is longer, in bytes of UTF-8, than the
    reader's field limit. *)
Theorem snapshot_text_round_trip (rows : list row) :
  Forall (fun r => Forall field_ok (row_fields r)) rows ->
  reader (csv_text rows) = Some (fieldnames :: (row_fields <$> rows)) ∧
  DictReader (csv_text rows) = Some (row_dict <$> rows).
Proof.
  intros Hok. split; [by apply reader_csv_text|by apply dictreader_csv_text].
Qed.

Lemma sample_rows_ok : Forall (fun r => Forall text_ok (row_fields r)) sample_rows.
Proof. repeat constructor; by vm_compute. Qed.

Lemma text_ok_field_ok (rows : list row) :
  Forall (fun r => Forall text_ok (row_fields r)) rows ->
  Forall (fun r => Forall field_ok (row_fields r)) rows.
Proof.
  intros Hok. eapply Forall_impl; [exact Hok|]. intros r Hr.
  eapply Forall_impl; [exact Hr|]. by intros f [? _].
Qed.

Lemma snapshot_text_round_trip_witness :
  Forall (fun r => Forall field_ok (row_fields r)) sample_rows ∧
  reader (csv_text sample_rows) = Some (fieldnames :: (row_fields <$> sample_rows)) ∧
  DictReader (csv_text sample_rows) = Some (row_dict <$> sample_rows).
Proof.
  pose proof (text_ok_field_ok sample_rows sample_rows_ok) as Hok.
  split; [exact Hok|]. exact (snapshot_text_round_trip sample_rows Hok).
Defined.

(** ** Through the store *)

Lemma utf8_run_app (a b : string) (st : Utf8.dstate) :
  Utf8.run st (a +:+ b) =
  match Utf8.run st a with Some st' => Utf8.run st' b | None => None end.
Proof.
  revert st. induction a as [|c a IH]; intros st; [done|].
  rewrite app_cons. cbn [Utf8.run]. destruct (Utf8.step st c); [apply IH|done].
Qed.

Lemma utf8_valid_run (s : string) : Utf8.valid s = true <-> Utf8.run Utf8.Start s = Some Utf8.Start.
Proof.
  unfold Utf8.valid. destruct (Utf8.run Utf8.Start s) as [[]|]; split; congruence.
Qed.

Lemma utf8_valid_app (a b : string) :
  Utf8.valid a = true -> Utf8.valid b = true -> Utf8.valid (a +:+ b) = true.
Proof.
  rewrite !utf8_valid_run, utf8_run_app. by intros -> ->.
Qed.

(** Doubling a quote character, which is ASCII, changes nothing for
    the decoder. *)
Lemma utf8_run_doubled (f : string) (st : Utf8.dstate) :
  Utf8.run st (doubled f) = Utf8.run st f.
Proof.
  revert st. induction f as [|c f IH]; intros st; [done|].
  cbn [doubled]. destruct (Ascii.eqb c quotechar) eqn:Hq.
  - apply Ascii.eqb_eq in Hq as ->. cbn [Utf8.run].
    destruct st; try reflexivity.
    change (Utf8.step Utf8.Start quotechar) with (Some Utf8.Start). apply IH.
  - cbn [Utf8.run]. destruct (Utf8.step st c); [apply IH|done].
Qed.

Lemma utf8_valid_write_field (f : string) :
  Utf8.valid f = true -> Utf8.valid (write_field f) = true.
Proof.
  intros Hf. unfold write_field. destruct (needs_quotes f); [|done].
  change (String quotechar (doubled f +:+ String quotechar ""))
    with (String quotechar "" +:+ (doubled f +:+ String quotechar "")).
  repeat apply utf8_valid_app; try done.
  apply utf8_valid_run. rewrite utf8_run_doubled. by apply utf8_valid_run.
Qed.

Lemma utf8_valid_join (fs : list string) :
  Forall (fun f => Utf8.valid f = true) fs -> Utf8.valid (join_fields fs) = true.
Proof.
  induction 1 as [|f fs Hf Hfs IH]; [done|].
  destruct fs as [|g fs]; [by apply utf8_valid_write_field|].
  rewrite join_fields_cons.
  apply utf8_valid_app; [by apply utf8_valid_write_field|].
  change (String delimiter (join_fields (g :: fs)))
    with (String delimiter "" +:+ join_fields (g :: fs)).
  by apply utf8_valid_app.
Qed.

Lemma utf8_valid_writerow (fs : list string) :
  Forall (fun f => Utf8.valid f = true) fs -> Utf8.valid (writerow fs) = true.
Proof.
  intros Hfs. unfold writerow.
  assert (Utf8.valid (join_fields fs +:+ lineterminator) = true) as Hjoin.
  { apply utf8_valid_app; [by apply utf8_valid_join|done]. }
  by destruct fs as [|[|c f] [|g l]].
Qed.

Lemma utf8_valid_concat (l : list string) :
  Forall (fun s => Utf8.valid s = true) l -> Utf8.valid (concat_strings l) = true.
Proof.
  induction 1 as [|s l Hs Hl IH]; [done|].
  cbn [concat_strings]. by apply utf8_valid_app.
Qed.

Lemma utf8_valid_csv_text (rows : list row) :
  Forall (fun r => Forall text_ok (row_fields r)) rows ->
  Utf8.valid (csv_text rows) = true.
Proof.
  intros Hok. unfold csv_text. apply utf8_valid_app; [done|].
  apply utf8_valid_concat, Forall_fmap.
  eapply Forall_impl; [exact Hok|]. intros r Hr.
  change ((writerow ∘ row_fields) r) with (writerow (row_fields r)).
  apply utf8_valid_writerow. eapply Forall_impl; [exact Hr|]. by intros f [_ ?].
Qed.

Lemma find_app_s {A} (f : A -> bool) (l1 l2 : list A) :
  List.find f (l1 ++ l2)
  = match List.find f l1 with Some y => Some y | None => List.find f l2 end.
Proof.
  induction l1 as [|y l1 IH]; [done|].
  cbn [app List.find]. by destruct (f y).
Qed.

Lemma find_filter_none {A} (P : A -> Prop) (Hdec : forall x, Decision (P x))
    (f : A -> bool) (l : list A) :
  (forall y, P y -> f y = false) -> List.find f (filter P l) = None.
Proof.
  intros Hf. induction l as [|y l IH]; [done|].
  rewrite filter_cons. destruct (decide (P y)) as [Hy|Hy]; [|done].
  cbn [List.find]. by rewrite (Hf y Hy).
Qed.

Lemma find_filter_same {A} (P : A -> Prop) (Hdec : forall x, Decision (P x))
    (f : A -> bool) (l : list A) :
  (forall y, f y = true -> P y) -> List.find f (filter P l) = List.find f l.
Proof.
  intros Hf. induction l as [|y l IH]; [done|].
  rewrite filter_cons. destruct (decide (P y)) as [Hy|Hy].
  - cbn [List.find]. by rewrite IH.
  - cbn [List.find]. destruct (f y) eqn:Hfy; [|done].
    by destruct Hy; apply Hf.
Qed.

Lemma find_put (st : store) (name other bytes : string) (now : datetime) :
  List.find (fun b => String.eqb (blob_name b) other) (put_object st name bytes now)
  = if String.eqb name other then Some (Blob name bytes now)
    else List.find (fun b => String.eqb (blob_name b) other) st.
Proof.
  unfold put_object. change store with (list blob) in *. rewrite find_app_s.
  destruct (String.eqb_spec name other) as [Heq|Hne].
  - subst other. rewrite find_filter_none; [|done].
    cbn [List.find blob_name]. by rewrite String.eqb_refl.
  - rewrite find_filter_same.
    + destruct (List.find _ st); [done|].
      cbn [List.find blob_name].
      by destruct (String.eqb_spec name other).
    + intros y Hy. apply String.eqb_eq in Hy.
      apply String.eqb_neq. congruence.
Qed.

Lemma get_object_put (st : store) (name bytes : string) (now : datetime) :
  get_object (put_object st name bytes now) name = Py.Ok bytes.
Proof. unfold get_object. by rewrite find_put, String.eqb_refl. Qed.

Lemma get_object_put_other (st : store) (name other bytes : string) (now : datetime) :
  other ≠ name ->
  get_object (put_object st name bytes now) other = get_object st other.
Proof.
  intros Hne. unfold get_object. rewrite find_put.
  destruct (String.eqb_spec name other); [congruence|done].
Qed.

(** X2. A snapshot uploaded under a name that is not empty is fetched
    back from the store, by the same name, as the dicts of its rows
    (its fields being well-formed UTF-8 within the field limit); the
    fetch of any other name is answered as before the upload. *)
Theorem fetch_uploaded_snapshot (st : store) (name : string) (rows : list row)
    (now : datetime) :
  name ≠ "" ->
  Forall (fun r => Forall text_ok (row_fields r)) rows ->
  let st' := put_object st name (Utf8.encode (csv_text rows)) now in
  App.read_csv_from_minio st' name = Py.Ok (row_dict <$> rows) ∧
  App.get_csv st' name = App.Json (row_dict <$> rows) ∧
  (forall other, other ≠ name -> App.get_csv st' other = App.get_csv st other).
Proof.
  intros Hname Hok st'.
  assert (App.read_csv_from_minio st' name = Py.Ok (row_dict <$> rows)) as Hread.
  { unfold App.read_csv_from_minio, st'. rewrite get_object_put.
    unfold Utf8.encode, Utf8.decode, mbind, result_bind.
    cbn [Py.bind].
    rewrite utf8_valid_csv_text by done.
    cbn [Py.bind].
    by rewrite (dictreader_csv_text rows (text_ok_field_ok rows Hok)). }
  split; [exact Hread|]. split.
  - unfold App.get_csv. destruct (String.eqb_spec name ""); [done|]. by rewrite Hread.
  - intros other Hother. unfold App.get_csv, App.read_csv_from_minio, st'.
    by rewrite get_object_put_other.
Qed.

Lemma fetch_uploaded_snapshot_witness :
  "metrics/2024-03-05_38s.csv" ≠ "" ∧
  Forall (fun r => Forall text_ok (row_fields r)) sample_rows ∧
  let st' := put_object five_snapshots "metrics/2024-03-05_38s.csv"
               (Utf8.encode (csv_text sample_rows)) (Datetime 2024 3 5 7 0 0 0) in
  App.read_csv_from_minio st' "metrics/2024-03-05_38s.csv"
    = Py.Ok (row_dict <$> sample_rows) ∧
  App.get_csv st' "metrics/2024-03-05_38s.csv" = App.Json (row_dict <$> sample_rows) ∧
  (forall other, other ≠ "metrics/2024-03-05_38s.csv" ->
                 App.get_csv st' other = App.get_csv five_snapshots other).
Proof.
  assert ("metrics/2024-03-05_38s.csv" ≠ "") as Hname by done.
  split; [exact Hname|]. split; [exact sample_rows_ok|].
  exact (fetch_uploaded_snapshot five_snapshots _ sample_rows _ Hname sample_rows_ok).
Defined.

End snapshot_round_trip.

(* ================================================================== *)
(** * The round trip of an aggregation result *)

Section aggregation_round_trip.
Import Minio Main.

(** C4. The rows of an aggregation result, written as a snapshot,
    uploaded and fetched by the viewer, come back in the same order,
    one dict per row, each holding under the five field names
    [path], [size_bytes], [size_mb], [size_gb], [size_human] exactly
    the strings that were written for the row; so does the text itself
    when it is parsed without going through the store.  The fields are
    well-formed UTF-8 and none is longer than the reader's field limit
    of 131072, which no object name of the backend reaches. *)
Theorem written_snapshot_round_trip (l : listings) (st : store) (name : string)
    (now : datetime) :
  let rows := run_rows l in
  Forall (fun r => Forall text_ok (row_fields r)) rows ->
  name ≠ "" ->
  let parsed :=
    (fun r => zip (Some <$> fieldnames) (Csv.VStr <$> row_fields r)) <$> rows in
  Csv.reader (csv_text rows) = Some (fieldnames :: (row_fields <$> rows)) ∧
  Csv.DictReader (csv_text rows) = Some parsed ∧
  App.read_csv_from_minio (put_object st name (Utf8.encode (csv_text rows)) now) name
    = Py.Ok parsed ∧
  App.get_csv (put_object st name (Utf8.encode (csv_text rows)) now) name
    = App.Json parsed ∧
  length parsed = length rows ∧
  (forall i r, rows !! i = Some r ->
     parsed !! i =
     Some [(Some "path", Csv.VStr (path r));
           (Some "size_bytes", Csv.VStr (PyStr.str_int (size_bytes r)));
           (Some "size_mb", Csv.VStr (PyFloat.float_repr (size_mb r)));
           (Some "size_gb", Csv.VStr (PyFloat.float_repr (size_gb r)));
           (Some "size_human", Csv.VStr (size_human r))]).
Proof.
  intros rows Hok Hname parsed.
  assert (parsed = row_dict <$> rows) as -> by reflexivity.
  pose proof (text_ok_field_ok rows Hok) as Hfields.
  assert (App.read_csv_from_minio
            (put_object st name (Utf8.encode (csv_text rows)) now) name
          = Py.Ok (row_dict <$> rows)) as Hread.
  { unfold App.read_csv_from_minio. rewrite get_object_put.
    unfold Utf8.encode, Utf8.decode, mbind, result_bind. cbn [Py.bind].
    rewrite utf8_valid_csv_text by done. cbn [Py.bind].
    by rewrite (dictreader_csv_text rows Hfields). }
  split; [by apply reader_csv_text|].
  split; [by apply dictreader_csv_text|].
  split; [exact Hread|]. split; [|split].
  - unfold App.get_csv. destruct (String.eqb_spec name ""); [done|]. by rewrite Hread.
  - by rewrite length_fmap.
  - intros i r Hi. by rewrite list_lookup_fmap, Hi.
Qed.

Lemma written_snapshot_round_trip_witness :
  let l := Listings [("cdm-lake", sample_objects); ("empty", [])]
                    sample_objects sample_objects in
  let st := five_snapshots in
  let name := "metrics/2024-03-10_41s.csv" in
  let now := Datetime 2024 3 10 6 0 41 0 in
  let rows := run_rows l in
  Forall (fun r => Forall text_ok (row_fields r)) rows ∧
  name ≠ "" ∧
  let parsed :=
    (fun r => zip (Some <$> fieldnames) (Csv.VStr <$> row_fields r)) <$> rows in
  Csv.reader (csv_text rows) = Some (fieldnames :: (row_fields <$> rows)) ∧
  Csv.DictReader (csv_text rows) = Some parsed ∧
  App.read_csv_from_minio (put_object st name (Utf8.encode (csv_text rows)) now) name
    = Py.Ok parsed ∧
  App.get_csv (put_object st name (Utf8.encode (csv_text rows)) now) name
    = App.Json parsed ∧
  length parsed = length rows ∧
  (forall i r, rows !! i = Some r ->
     parsed !! i =
     Some [(Some "path", Csv.VStr (path r));
           (Some "size_bytes", Csv.VStr (PyStr.str_int (size_bytes r)));
           (Some "size_mb", Csv.VStr (PyFloat.float_repr (size_mb r)));
           (Some "size_gb", Csv.VStr (PyFloat.float_repr (size_gb r)));
           (Some "size_human", Csv.VStr (size_human r))]).
Proof.
  intros l st name now rows.
  assert (name ≠ "") as Hname by done.
  split; [exact sample_rows_ok|]. split; [exact Hname|].
  exact (written_snapshot_round_trip l st name now sample_rows_ok Hname).
Defined.

End aggregation_round_trip.

(* ================================================================== *)
(** * The path rows against the bucket rows *)

Section path_rows_total.
Import Minio Main.

Lemma rows_total_path_rows (items : list (string * Z)) :
  rows_total (path_row <$> items) = foldr (fun it acc => snd it + acc) 0 items.
Proof. induction items as [|it items IH]; [done|]. cbn. by rewrite <-IH. Qed.

Lemma sum_items_Permutation (l1 l2 : list (string * Z)) :
  l1 ≡ₚ l2 ->
  foldr (fun it acc => snd it + acc) 0 l1 = foldr (fun it acc => snd it + acc) 0 l2.
Proof. induction 1; cbn; lia. Qed.

Lemma rows_total_path_data (m : gmap string Z) :
  rows_total (path_data m) = dict_total m.
Proof.
  unfold path_data, dict_total.
  rewrite rows_total_path_rows, (sum_items_Permutation _ _ (sorted_items_Permutation m)).
  rewrite map_fold_foldr.
  induction (map_to_list m) as [|[k v] l IH]; [done|]. cbn. by rewrite IH.
Qed.

Lemma listing_size_acc (l : list object) (a : Z) :
  foldl (fun acc obj => acc + size obj) a l = a + listing_size l.
Proof.
  unfold listing_size. revert a. induction l as [|o l IH]; intros a; cbn; [lia|].
  rewrite (IH (a + size o)), (IH (0 + size o)). lia.
Qed.

Lemma size_where_all (p : string -> bool) (l : list object) :
  (forall obj, obj ∈ l -> p (object_name obj) = true) ->
  size_where p l = listing_size l.
Proof.
  induction l as [|o l IH]; intros Hp; [done|].
  unfold listing_size. cbn. rewrite listing_size_acc.
  rewrite (Hp o) by apply list_elem_of_here.
  rewrite <-IH; [unfold size_where; lia|].
  intros obj Hobj. apply Hp. by apply list_elem_of_further.
Qed.

Lemma size_where_le (p : string -> bool) (l : list object) :
  Forall (fun obj => 0 <= size obj) l -> 0 <= size_where p l <= listing_size l.
Proof.
  induction 1 as [|o l Ho Hl IH]; [done|].
  unfold listing_size. cbn. rewrite listing_size_acc.
  fold (size_where p l). destruct (p (object_name o)); lia.
Qed.

(** X3. The [size_bytes] of the path rows add up to the sizes of the
    second-pass objects whose key was discovered: never more than the
    whole second listing (sizes are not negative), and exactly the
    [size_bytes] of the bucket row computed from that listing when every
    object of the second pass has a key found in the first pass, as
    when both passes see the same objects. *)
Theorem path_rows_total (pass1 pass2 : list object) :
  let total := rows_total (path_data (path_sizes pass1 pass2)) in
  (Forall (fun obj => 0 <= size obj) pass2 -> 0 <= total <= listing_size pass2) ∧
  ((forall obj, obj ∈ pass2 -> ∃ obj', obj' ∈ pass1 ∧ key_of obj' = key_of obj) ->
   bucket_data [(bucket_name, pass2)]
     = [BucketEntry bucket_name total (format_size total)]).
Proof.
  intros total.
  assert (total = size_where
            (fun n => bool_decide (two_level_path n ∈ two_level_paths pass1)) pass2)
    as Htotal.
  { unfold total, path_sizes.
    rewrite rows_total_path_data, dict_total_foldl_add_size, dict_total_gset_to_gmap_0.
    by rewrite dom_gset_to_gmap. }
  split.
  - intros Hsize. rewrite Htotal. by apply size_where_le.
  - intros Hkeys. rewrite Htotal, size_where_all.
    + done.
    + intros obj Hobj. apply bool_decide_eq_true, elem_of_two_level_paths.
      by apply Hkeys.
Qed.


Lemma size_two_level_paths_acc (l : list object) (acc : gset string) :
  (base.size (foldl (fun acc obj => {[ two_level_path (object_name obj) ]} ∪ acc) acc l)
   <= base.size acc + length l)%nat.
Proof.
  revert acc. induction l as [|o l IH]; intros acc; cbn [foldl length]; [lia|].
  etrans; [apply IH|].
  destruct (decide (two_level_path (object_name o) ∈ acc)) as [Hin|Hout].
  - assert ({[two_level_path (object_name o)]} ∪ acc = acc) as ->
      by (apply subseteq_union_1_L, singleton_subseteq_l, Hin).
    lia.
  - rewrite size_union by (by apply disjoint_singleton_l).
    rewrite size_singleton. lia.
Qed.

Lemma length_path_data (m : gmap string Z) : length (path_data m) = base.size (dom m).
Proof.
  unfold path_data.
  by rewrite length_fmap, length_sorted, length_map_to_list, size_dom.
Qed.

(** X4. There is one path row per distinct key of the first pass, so
    never more path rows than objects in the first listing; when the
    first listing is empty there is no path row, whatever the second
    pass lists. *)
Theorem path_row_count (pass1 pass2 : list object) :
  length (path_data (path_sizes pass1 pass2)) = base.size (two_level_paths pass1) ∧
  (length (path_data (path_sizes pass1 pass2)) <= length pass1)%nat ∧
  path_data (path_sizes [] pass2) = [].
Proof.
  assert (forall p1, length (path_data (path_sizes p1 pass2)) = base.size (two_level_paths p1))
    as Hlen by (intros p1; by rewrite length_path_data, path_sizes_dom).
  split; [apply Hlen|]. split.
  - rewrite Hlen. unfold two_level_paths.
    etrans; [apply size_two_level_paths_acc|]. by rewrite size_empty.
  - apply length_zero_iff_nil. by rewrite Hlen.
Qed.

End path_rows_total.

(* ================================================================== *)
(** * The aggregation key of an object name *)

Section aggregation_key.
Import Main.

Lemma split_no_sep_in (c : ascii) (s : string) :
  Forall (fun w => PyStr.contains c w = false) (PyStr.split c s).
Proof.
  induction s as [|d s IH]; cbn [PyStr.split].
  - by constructor.
  - destruct (Ascii.eqb_spec d c) as [->|Hne].
    + by constructor.
    + pose proof (split_nonempty c s) as Hs.
      destruct (PyStr.split c s) as [|w ws]; [done|].
      apply Forall_cons in IH as [Hw Hws].
      constructor; [|done]. cbn [PyStr.contains].
      apply Ascii.eqb_neq in Hne. by rewrite Hne.
Qed.

Lemma split_app_sep (c : ascii) (a b : string) :
  PyStr.contains c a = false ->
  PyStr.split c (a +:+ String c b) = a :: PyStr.split c b.
Proof.
  induction a as [|d a IH]; intros Ha.
  - rewrite app_empty_l. cbn [PyStr.split]. by rewrite Ascii.eqb_refl.
  - cbn [PyStr.contains] in Ha. apply orb_false_iff in Ha as [Hd Ha].
    rewrite app_cons. cbn [PyStr.split]. by rewrite Hd, IH.
Qed.

(** A text is its first segment, followed when there are more segments
    by the separator and the text of the others. *)
Lemma split_head (c : ascii) (s : string) :
  match PyStr.split c s with
  | [] => False
  | [w] => s = w
  | w :: w' :: ws => ∃ s', s = w +:+ String c s' ∧ PyStr.split c s' = w' :: ws
  end.
Proof.
  induction s as [|d s IH]; cbn [PyStr.split]; [done|].
  destruct (Ascii.eqb_spec d c) as [->|Hne].
  - pose proof (split_nonempty c s) as Hs.
    destruct (PyStr.split c s) as [|w ws] eqn:E; [done|].
    exists s. by rewrite app_empty_l.
  - destruct (PyStr.split c s) as [|w [|w' ws]]; [done|by subst|].
    destruct IH as (s' & -> & Hs'). by exists s'.
Qed.

Lemma prefix_app_s (s t : string) : String.prefix s (s +:+ t) = true.
Proof.
  induction s as [|d s IH]; [rewrite app_empty_l; by destruct t|].
  rewrite app_cons. cbn [String.prefix]. by destruct (ascii_dec d d).
Qed.

(** X5. The aggregation key of an object name is a prefix of that name,
    it has at most two segments, and it is its own key: an object named
    like a key is counted under that key. *)
Theorem key_of_object_name (name : string) :
  PyStr.startswith (two_level_path name) name = true ∧
  two_level_path (two_level_path name) = two_level_path name ∧
  (length (PyStr.split "/" (two_level_path name)) <= 2)%nat.
Proof.
  rewrite (two_level_path_segments name).
  pose proof (split_head "/" name) as Hhead.
  pose proof (split_no_sep_in "/" name) as Hno.
  destruct (PyStr.split "/" name) as [|s0 [|s1 rest]] eqn:E; [done| |].
  - subst s0. apply Forall_cons in Hno as [Hname _].
    rewrite two_level_path_no_slash, split_no_sep by done.
    split; [|split; [done|cbn; lia]]. unfold PyStr.startswith.
    rewrite <-(app_empty_r name) at 2. apply prefix_app_s.
  - destruct Hhead as (s' & -> & Hs').
    apply Forall_cons in Hno as [H0 Hno]. apply Forall_cons in Hno as [H1 _].
    assert (PyStr.split "/" (s0 +:+ "/" +:+ s1) = [s0; s1]) as Hkey.
    { change (s0 +:+ "/" +:+ s1) with (s0 +:+ String "/" s1).
      by rewrite split_app_sep, (split_no_sep _ s1). }
    split; [|split].
    + unfold PyStr.startswith.
      pose proof (split_head "/" s') as Hs1. rewrite Hs' in Hs1.
      destruct rest as [|s2 rest].
      * subst s'. change (s0 +:+ String "/" s1) with (s0 +:+ "/" +:+ s1).
        rewrite <-(app_empty_r (s0 +:+ "/" +:+ s1)) at 2. apply prefix_app_s.
      * destruct Hs1 as (s'' & -> & _).
        replace (s0 +:+ String "/" (s1 +:+ String "/" s''))
          with ((s0 +:+ "/" +:+ s1) +:+ String "/" s'').
        { apply prefix_app_s. }
        rewrite !app_assoc_s. by rewrite app_cons, app_empty_l.
    + by rewrite (two_level_path_segments (s0 +:+ "/" +:+ s1)), Hkey.
    + rewrite Hkey. cbn. lia.
Qed.

End aggregation_key.

(* ================================================================== *)
(** * The catalog for any store and any query *)

Section catalog.
Import Minio App.

Lemma length_metrics_files (st : store) (n : Z) :
  0 <= n ->
  length (PySort.slice_to n
            (PySort.sorted_key_reverse String.ltb last_modified
               (file_of_blob <$> filter is_snapshot st)))
  = Nat.min (Z.to_nat n) (length (filter is_snapshot st)).
Proof.
  intros Hn. rewrite slice_to_take by done. unfold PySort.sorted_key_reverse.
  by rewrite length_take, length_sorted, length_fmap.
Qed.

Lemma elem_of_slice_to {A : Type} (n : Z) (l : list A) (x : A) :
  x ∈ PySort.slice_to n l -> x ∈ l.
Proof. unfold PySort.slice_to. destruct (0 <=? n); apply subseteq_take. Qed.

Lemma elem_of_metrics_files (st : store) (n : Z) (f : file_info) :
  f ∈ PySort.slice_to n
        (PySort.sorted_key_reverse String.ltb last_modified
           (file_of_blob <$> filter is_snapshot st)) ->
  ∃ b, b ∈ st ∧ is_snapshot b ∧ f = file_of_blob b.
Proof.
  intros Hf. apply elem_of_slice_to in Hf.
  unfold PySort.sorted_key_reverse in Hf.
  apply elem_of_sorted, list_elem_of_fmap in Hf as (b & -> & Hb).
  apply list_elem_of_filter in Hb as [Hsnap Hb]. by exists b.
Qed.

(** X6. The catalog never fails.  [get_metrics_files] returns for every
    store and every limit, and each of its entries is the entry of a
    snapshot of the store (the directory entries of the listing, which
    have no modification time, never reach [isoformat]).  The route
    answers 422 when the limit (5 by default) is outside 1..20, never
    500, and otherwise returns as many entries as there are snapshots,
    up to the limit. *)
Theorem catalog_never_fails (st : store) (limit : option Z) :
  let n := default 5 limit in
  (forall l, ∃ files,
      get_metrics_files st l = Py.Ok files ∧
      Forall (fun f => ∃ b, b ∈ st ∧ is_snapshot b ∧ f = file_of_blob b) files) ∧
  (¬ (1 <= n <= 20) -> ∃ d, list_files st limit = HTTPException 422 d) ∧
  (1 <= n <= 20 ->
   ∃ files,
     list_files st limit = Json files ∧
     length files = Nat.min (Z.to_nat n) (length (filter is_snapshot st)) ∧
     Forall (fun f => ∃ b, b ∈ st ∧ is_snapshot b ∧ f = file_of_blob b) files) ∧
  (forall d, list_files st limit ≠ HTTPException 500 d).
Proof.
  intros n.
  assert (forall l, ∃ files,
             get_metrics_files st l = Py.Ok files ∧
             Forall (fun f => ∃ b, b ∈ st ∧ is_snapshot b ∧ f = file_of_blob b) files)
    as Hget.
  { intros l. eexists. split; [apply get_metrics_files_eq|].
    apply Forall_forall. intros f. apply elem_of_metrics_files. }
  split; [exact Hget|].
  unfold list_files. fold n.
  destruct (Z.leb_spec 1 n) as [H1|H1]; cbn [andb].
  - destruct (Z.leb_spec n 20) as [H20|H20].
    + rewrite get_metrics_files_eq. split; [lia|]. split; [|done].
      intros _. eexists. split; [done|]. split.
      * apply length_metrics_files. lia.
      * apply Forall_forall. intros f. apply elem_of_metrics_files.
    + split; [by eexists|]. split; [lia|done].
  - split; [by eexists|]. split; [lia|done].
Qed.

End catalog.

(* ================================================================== *)
(** * The upload of a run in the catalog *)

Section upload_in_catalog.
Import Minio App.

Lemma pretty_N_char_no_slash (d : N) : Ascii.eqb (pretty_N_char d) "/" = false.
Proof. unfold pretty_N_char. by repeat case_match. Qed.

Lemma pretty_N_go_no_slash (x : N) (s : string) :
  PyStr.contains "/" s = false -> PyStr.contains "/" (pretty_N_go x s) = false.
Proof.
  revert s. induction (N.lt_wf_0 x) as [x _ IH]; intros s Hs.
  assert (x = 0 ∨ 0 < x)%N as [->|Hx] by lia.
  - by rewrite pretty_N_go_0.
  - rewrite pretty_N_go_step by done. apply IH.
    + by apply N.div_lt.
    + cbn [PyStr.contains]. by rewrite pretty_N_char_no_slash, Hs.
Qed.

Lemma pretty_N_no_slash (x : N) : PyStr.contains "/" (pretty x) = false.
Proof.
  unfold pretty, pretty_N. case_decide; [done|]. by apply pretty_N_go_no_slash.
Qed.

Lemma str_int_no_slash (n : Z) : PyStr.contains "/" (PyStr.str_int n) = false.
Proof.
  unfold PyStr.str_int, pretty, pretty_Z. destruct n as [|p|p]; [done|..].
  - apply pretty_N_no_slash.
  - rewrite contains_app. cbn [PyStr.contains orb].
    change (pretty p) with (pretty (Npos p)). by rewrite pretty_N_no_slash.
Qed.

Lemma minio_path_is_snapshot (c : Main.clock) (bytes : string) (now : datetime) :
  PyStr.contains "/" (Main.datestamp c) = false ->
  is_snapshot (Blob (Main.minio_path c) bytes now).
Proof.
  intros Hdate. unfold is_snapshot, Main.minio_path. cbn [blob_name].
  split; [|split].
  - apply prefix_app_s.
  - change (drop_chars (String.length metrics_prefix)
              ("metrics/" +:+ Main.datestamp c +:+ "_"
                 +:+ PyStr.str_int (Main.runtime_seconds c) +:+ "s.csv"))
      with (Main.datestamp c +:+ "_"
              +:+ PyStr.str_int (Main.runtime_seconds c) +:+ "s.csv").
    by rewrite !contains_app, Hdate, str_int_no_slash.
  - change "s.csv" with ("s" +:+ ".csv"). rewrite <-!app_assoc_s.
    apply endswith_app.
Qed.

(** An element that sorts before every other one comes first. *)
Lemma sorted_snoc_first {A : Type} (lt : A -> A -> bool) (l : list A) (x : A) :
  Forall (fun y => lt x y = true) l ->
  PySort.sorted lt (l ++ [x]) = x :: PySort.sorted lt l.
Proof.
  intros Hl. unfold PySort.sorted. rewrite foldl_app. cbn [foldl].
  fold (PySort.sorted lt l).
  destruct (PySort.sorted lt l) as [|y l'] eqn:E; [done|].
  cbn [PySort.insert].
  assert (y ∈ l) as Hy by (apply (elem_of_sorted lt); rewrite E; apply list_elem_of_here).
  by rewrite (proj1 (Forall_forall _ _) Hl y Hy).
Qed.

Lemma filter_all {A : Type} (P : A -> Prop) (Hdec : forall x, Decision (P x))
    (l : list A) :
  Forall P l -> filter P l = l.
Proof.
  induction 1 as [|x l Hx Hl IH]; [done|].
  by rewrite filter_cons_True, IH.
Qed.

(** X7. The object a run uploads is a snapshot for the viewer.  Uploaded
    at a time later than those of the objects already stored, under the
    name the run builds from a date without a slash, it is the first
    entry of the catalog, with its time and its size in bytes; when the
    name is new, the entries after it are the catalog as it was, one
    entry shorter. *)
Theorem upload_heads_catalog (st : store) (c : Main.clock) (bytes : string)
    (now : datetime) (limit : Z) :
  PyStr.contains "/" (Main.datestamp c) = false ->
  1 <= limit <= 20 ->
  valid_datetime now ->
  Forall (fun b => valid_datetime (modified b) ∧ datetime_ltb (modified b) now = true) st ->
  let st' := put_object st (Main.minio_path c) bytes now in
  ∃ rest,
    list_files st' (Some limit) =
      Json (FileInfo (Main.minio_path c) (isoformat now)
                     (Some (Z.of_nat (String.length bytes))) :: rest) ∧
    ((forall b, b ∈ st -> blob_name b ≠ Main.minio_path c) ->
     get_metrics_files st (limit - 1) = Py.Ok rest).
Proof.
  intros Hdate Hlimit Hnow Hst st'.
  set (x := Blob (Main.minio_path c) bytes now).
  set (old := filter (fun b => String.eqb (blob_name b) (Main.minio_path c) = false) st).
  assert (filter is_snapshot st' = filter is_snapshot old ++ [x]) as Hsnaps.
  { unfold st', put_object. change store with (list blob) in *.
    rewrite filter_app. fold old. f_equal.
    rewrite filter_cons_True by (by apply minio_path_is_snapshot).
    by rewrite filter_nil. }
  exists (take (Z.to_nat (limit - 1))
            (PySort.sorted_key_reverse String.ltb last_modified
               (file_of_blob <$> filter is_snapshot old))).
  split.
  - unfold list_files. cbv zeta. cbn [default]. unfold id.
    rewrite (proj2 (Z.leb_le 1 limit)), (proj2 (Z.leb_le limit 20)) by lia.
    cbn [andb]. rewrite get_metrics_files_eq, slice_to_take by lia.
    rewrite Hsnaps, fmap_app. cbn [fmap list_fmap].
    unfold PySort.sorted_key_reverse. rewrite sorted_snoc_first.
    + replace (Z.to_nat limit) with (S (Z.to_nat (limit - 1))) by lia.
      done.
    + apply Forall_forall. intros f Hf.
      apply list_elem_of_fmap in Hf as (b & -> & Hb).
      apply list_elem_of_filter in Hb as [_ Hb].
      apply list_elem_of_filter in Hb as [_ Hb].
      apply (proj1 (Forall_forall _ _) Hst) in Hb as [Hvalid Hlt].
      cbn [last_modified file_of_blob modified].
      by rewrite isoformat_ltb.
  - intros Hfresh. rewrite get_metrics_files_eq, slice_to_take by lia.
    unfold old.
    rewrite (filter_all (fun b => String.eqb (blob_name b) (Main.minio_path c) = false) _ st);
      [done|].
    apply Forall_forall. intros b Hb. by apply String.eqb_neq, Hfresh.
Qed.

Lemma upload_heads_catalog_witness :
  let c := Main.Clock 41 "2024-03-10" "2024-03-10 06:00:41" in
  let now := Datetime 2024 3 10 6 0 41 0 in
  PyStr.contains "/" (Main.datestamp c) = false ∧
  1 <= 3 <= 20 ∧
  valid_datetime now ∧
  Forall (fun b => valid_datetime (modified b) ∧ datetime_ltb (modified b) now = true)
         five_snapshots ∧
  ∃ rest,
    list_files (put_object five_snapshots (Main.minio_path c) "path" now) (Some 3) =
      Json (FileInfo (Main.minio_path c) (isoformat now)
                     (Some (Z.of_nat (String.length "path"))) :: rest) ∧
    ((forall b, b ∈ five_snapshots -> blob_name b ≠ Main.minio_path c) ->
     get_metrics_files five_snapshots (3 - 1) = Py.Ok rest).
Proof.
  intros c now.
  assert (PyStr.contains "/" (Main.datestamp c) = false) as Hdate by reflexivity.
  assert (1 <= 3 <= 20) as Hlimit by lia.
  assert (valid_datetime now) as Hnow by (unfold valid_datetime; cbn; lia).
  assert (Forall (fun b => valid_datetime (modified b) ∧
                           datetime_ltb (modified b) now = true) five_snapshots) as Hst.
  { repeat constructor; cbn; lia. }
  split; [exact Hdate|]. split; [exact Hlimit|]. split; [exact Hnow|].
  split; [exact Hst|].
  exact (upload_heads_catalog five_snapshots c "path" now 3 Hdate Hlimit Hnow Hst).
Defined.

End upload_in_catalog.

(* ================================================================== *)
(** * The manual quota check on a snapshot of a run *)

Section quota_of_snapshot.
Import Minio PyFloat.
Variable float : string -> option pyfloat.

Lemma check_row_written (r : Main.row) :
  (PyStr.contains "/" (Main.path r) = true ->
   float (float_repr (Main.size_gb r)) = Some (Main.size_gb r)) ->
  Quota.check_row float (row_dict r)
  = Py.Ok (as_read
           <$> (if negb (PyStr.contains "/" (Main.path r)) then None
                else if gt_int (Main.size_gb r) Main.QUOTA_GB
                     then Some (Main.Violation (Main.path r) (Main.size_gb r)
                                               (Main.size_human r))
                     else None)).
Proof.
  intros Hfloat. unfold Quota.check_row.
  change (Quota.getitem (row_dict r) "path") with (Py.Ok (Csv.VStr (Main.path r))).
  change (Quota.getitem (row_dict r) "size_gb")
    with (Py.Ok (Csv.VStr (float_repr (Main.size_gb r)))).
  change (Quota.getitem (row_dict r) "size_human")
    with (Py.Ok (Csv.VStr (Main.size_human r))).
  unfold mbind, result_bind. cbn [Py.bind].
  destruct (PyStr.contains "/" (Main.path r)); cbn [negb]; [|done].
  rewrite Hfloat by done.
  change Quota.QUOTA_GB with Main.QUOTA_GB.
  by destruct (gt_int (Main.size_gb r) Main.QUOTA_GB).
Qed.

Lemma mapM_fmap_ok {A B C : Type} (f : B -> Py.result C) (k : A -> B) (g : A -> C)
    (l : list A) :
  (forall x, x ∈ l -> f (k x) = Py.Ok (g x)) -> Py.mapM f (k <$> l) = Py.Ok (g <$> l).
Proof.
  induction l as [|x l IH]; intros Hf; [done|].
  rewrite !fmap_cons. cbn [Py.mapM].
  rewrite Hf by apply list_elem_of_here. cbn [Py.bind].
  rewrite IH by (intros y Hy; by apply Hf, list_elem_of_further). done.
Qed.

Lemma omap_id_fmap {A B C : Type} (a : B -> C) (h : A -> option B) (l : list A) :
  omap id ((fun x => a <$> h x) <$> l) = a <$> omap h l.
Proof.
  induction l as [|x l IH]; [done|].
  rewrite fmap_cons. cbn [omap list_omap]. fold (@omap list _).
  destruct (h x) as [y|]; cbn [fmap option_fmap option_map id].
  - rewrite fmap_cons. f_equal. exact IH.
  - exact IH.
Qed.

Lemma over_quota_written (rows : list Main.row) :
  (forall r, r ∈ rows -> PyStr.contains "/" (Main.path r) = true ->
             float (float_repr (Main.size_gb r)) = Some (Main.size_gb r)) ->
  Quota.over_quota float (row_dict <$> rows) = Py.Ok (as_read <$> Main.over_quota rows).
Proof.
  intros Hfloat. unfold Quota.over_quota, Main.over_quota.
  erewrite mapM_fmap_ok; [|intros r Hr; apply check_row_written, Hfloat, Hr].
  cbn [Py.bind]. f_equal. apply omap_id_fmap.
Qed.

Lemma report_as_read (found : list Main.violation) :
  Quota.report (as_read <$> found)
  = (fun line => (as_read (fst line), snd line)) <$> Main.report found.
Proof.
  unfold Quota.report, Main.report, PySort.sorted_key_reverse.
  rewrite <-!list_fmap_compose.
  rewrite (sorted_fmap (fun a b => ltb (Quota.v_size_gb b) (Quota.v_size_gb a)) as_read).
  by rewrite <-!list_fmap_compose.
Qed.

(** X8. The manual quota check agrees with the run that wrote the
    snapshot.  On the text written for [rows] (no field beyond the field
    limit), with [float] reading back the [size_gb] numeral of every row
    that has a slash in its path, [manual_test/quota.py] finds the
    violations [main.py] found, in the same order, and reports them in
    the same order with the same overages.  The bucket rows are skipped
    before their [size_gb] is converted. *)
Theorem quota_check_of_snapshot (rows : list Main.row) :
  Forall (fun r => Forall field_ok (Main.row_fields r)) rows ->
  (forall r, r ∈ rows -> PyStr.contains "/" (Main.path r) = true ->
             float (float_repr (Main.size_gb r)) = Some (Main.size_gb r)) ->
  ∃ dicts,
    Csv.DictReader (Main.csv_text rows) = Some dicts ∧
    Quota.over_quota float dicts = Py.Ok (as_read <$> Main.over_quota rows) ∧
    Quota.report (as_read <$> Main.over_quota rows)
    = (fun line => (as_read (fst line), snd line)) <$> Main.report (Main.over_quota rows).
Proof.
  intros Hok Hfloat. exists (row_dict <$> rows). split; [|split].
  - by apply dictreader_csv_text.
  - by apply over_quota_written.
  - apply report_as_read.
Qed.

End quota_of_snapshot.

(* ================================================================== *)
(** * The latest snapshot *)

Section max_key_facts.
Context {A : Type} (lt : A -> A -> bool).

Lemma max_key_elem (x : A) (l : list A) : Quota.max_key lt x l ∈ x :: l.
Proof.
  unfold Quota.max_key. revert x. induction l as [|y l IH]; intros x.
  - apply list_elem_of_here.
  - cbn [foldl]. specialize (IH (if lt x y then y else x)).
    apply elem_of_cons in IH as [->|IH].
    + destruct (lt x y); [apply list_elem_of_further|]; apply list_elem_of_here.
    + by do 2 apply list_elem_of_further.
Qed.

(** The element taken last wins when it is greater than all others. *)
Lemma max_key_snoc (x : A) (l : list A) (z : A) :
  Forall (fun y => lt y z = true) (x :: l) -> Quota.max_key lt x (l ++ [z]) = z.
Proof.
  intros Hlt. unfold Quota.max_key. rewrite foldl_app. cbn [foldl].
  fold (Quota.max_key lt x l).
  by rewrite (proj1 (Forall_forall _ _) Hlt _ (max_key_elem x l)).
Qed.

Hypothesis lt_asym : forall x y, lt x y = true -> lt y x = false.
Hypothesis lt_negtrans :
  forall x y z, lt x y = false -> lt y z = false -> lt x z = false.

Lemma max_key_greatest (x : A) (l : list A) :
  Forall (fun y => lt (Quota.max_key lt x l) y = false) (x :: l).
Proof.
  unfold Quota.max_key. revert x. induction l as [|y l IH]; intros x.
  - constructor; [|constructor]. cbn.
    destruct (lt x x) eqn:E; [|done]. by rewrite (lt_asym x x E) in E.
  - cbn [foldl]. specialize (IH (if lt x y then y else x)).
    apply Forall_cons in IH as [Hhead Hl].
    set (m := foldl _ _ l) in *.
    destruct (lt x y) eqn:Hxy.
    + constructor; [|by constructor].
      eapply lt_negtrans; [exact Hhead|]. by apply lt_asym.
    + constructor; [done|]. constructor; [|done].
      by eapply lt_negtrans.
Qed.

End max_key_facts.

Lemma max_key_fmap {A B : Type} (lt : B -> B -> bool) (f : A -> B) (x : A) (l : list A) :
  Quota.max_key lt (f x) (f <$> l) = f (Quota.max_key (fun a b => lt (f a) (f b)) x l).
Proof.
  unfold Quota.max_key. revert x. induction l as [|y l IH]; intros x; [done|].
  rewrite fmap_cons. cbn [foldl]. rewrite <-IH. by destruct (lt (f x) (f y)).
Qed.

Section latest_snapshot.
Import Minio.
Variable float : string -> option PyFloat.pyfloat.

Lemma list_ltb_asym (a b : list Z) : list_ltb a b = true -> list_ltb b a = false.
Proof.
  revert b. induction a as [|x a IH]; intros [|y b]; cbn [list_ltb]; try done.
  intros H. apply orb_true_iff in H as [H|H].
  - apply Z.ltb_lt in H.
    rewrite (proj2 (Z.ltb_ge y x)) by lia. rewrite (proj2 (Z.eqb_neq y x)) by lia. done.
  - apply andb_true_iff in H as [Hxy H]. apply Z.eqb_eq in Hxy. subst y.
    by rewrite Z.ltb_irrefl, Z.eqb_refl, (IH b H).
Qed.

Lemma list_ltb_negtrans (a b c : list Z) :
  list_ltb a b = false -> list_ltb b c = false -> list_ltb a c = false.
Proof.
  revert b c. induction a as [|x a IH]; intros [|y b] [|z c]; cbn [list_ltb];
    try done.
  intros Hab Hbc.
  apply orb_false_iff in Hab as [Hxy Hab]. apply orb_false_iff in Hbc as [Hyz Hbc].
  apply Z.ltb_ge in Hxy, Hyz.
  apply orb_false_iff. split; [apply Z.ltb_ge; lia|].
  destruct (Z.eqb_spec x z) as [->|Hne]; [|done]. cbn [andb].
  assert (y = z) as -> by lia. rewrite Z.eqb_refl in Hab, Hbc.
  cbn [andb] in Hab, Hbc. by eapply IH.
Qed.

Lemma mapM_times (l : list blob) :
  Py.mapM (fun obj =>
             match e_last_modified obj with
             | Some d => Py.Ok (e_object_name obj, d)
             | None => Py.Raise Py.TypeError
             end) (entry_of_blob <$> l)
  = Py.Ok ((fun b => (blob_name b, modified b)) <$> l).
Proof.
  induction l as [|b l IH]; [done|].
  rewrite !fmap_cons. cbn [Py.mapM]. rewrite IH. done.
Qed.

(** The script reads the snapshot that [max] selects. *)
Lemma latest_over_quota_eq (st : store) :
  Quota.latest_over_quota float st =
  match filter is_snapshot st with
  | [] => Py.Ok None
  | b0 :: bs =>
      check_object float st
        (blob_name (Quota.max_key
                      (fun a b => datetime_ltb (modified a) (modified b)) b0 bs))
  end.
Proof.
  unfold Quota.latest_over_quota.
  change "metrics/" with App.metrics_prefix. rewrite metrics_entries.
  destruct (filter is_snapshot st) as [|b0 bs]; [done|].
  rewrite fmap_cons. rewrite <-(fmap_cons entry_of_blob).
  rewrite mapM_times. unfold mbind at 1, result_bind at 1. cbn [Py.bind].
  rewrite fmap_cons.
  rewrite (max_key_fmap (fun a b => datetime_ltb (snd a) (snd b))
                        (fun b => (blob_name b, modified b))).
  done.
Qed.

(** X9. [manual_test/quota.py] stops for lack of metrics files exactly
    when the store holds no snapshot; otherwise the object it checks is
    a snapshot of the store than which no snapshot is newer. *)
Theorem latest_snapshot_checked (st : store) :
  (Quota.latest_over_quota float st = Py.Ok None ↔ filter is_snapshot st = []) ∧
  (filter is_snapshot st ≠ [] ->
   ∃ b, b ∈ st ∧ is_snapshot b ∧
        Forall (not_older b) (filter is_snapshot st) ∧
        Quota.latest_over_quota float st = check_object float st (blob_name b)).
Proof.
  rewrite latest_over_quota_eq.
  destruct (filter is_snapshot st) as [|b0 bs] eqn:E.
  - split; [done|]. by intros [].
  - set (b := Quota.max_key _ b0 bs).
    split.
    + split; [|done]. unfold check_object, mbind, result_bind.
      destruct (get_object st (blob_name b)) as [data|e]; cbn [Py.bind]; [|done].
      destruct (Utf8.decode data) as [text|e]; cbn [Py.bind]; [|done].
      destruct (Csv.DictReader text) as [rows|]; [|done].
      by destruct (Quota.over_quota float rows).
    + intros _. exists b.
      assert (b ∈ filter is_snapshot st) as Hb by (rewrite E; apply max_key_elem).
      apply list_elem_of_filter in Hb as [Hsnap Hb].
      split; [exact Hb|]. split; [exact Hsnap|]. split; [|done].
      apply (max_key_greatest (fun a b => datetime_ltb (modified a) (modified b))).
      * intros x y. apply list_ltb_asym.
      * intros x y z. apply list_ltb_negtrans.
Qed.

Lemma snapshots_put (st : store) (c : Main.clock) (bytes : string) (now : datetime) :
  PyStr.contains "/" (Main.datestamp c) = false ->
  filter is_snapshot (put_object st (Main.minio_path c) bytes now)
  = filter is_snapshot
      (filter (fun b => String.eqb (blob_name b) (Main.minio_path c) = false) st)
    ++ [Blob (Main.minio_path c) bytes now].
Proof.
  intros Hdate. unfold put_object. change store with (list blob) in *.
  rewrite filter_app. f_equal.
  rewrite filter_cons_True by (by apply minio_path_is_snapshot).
  by rewrite filter_nil.
Qed.

(** X10. Run after [main.py], the manual check selects the snapshot just
    uploaded and finds the violations of that run: the store being the
    one after the upload of the text of [rows], at a time later than
    those of the objects stored before. *)
Theorem quota_after_run (st : store) (c : Main.clock) (rows : list Main.row)
    (now : datetime) :
  PyStr.contains "/" (Main.datestamp c) = false ->
  Forall (fun b => datetime_ltb (modified b) now = true) st ->
  Forall (fun r => Forall text_ok (Main.row_fields r)) rows ->
  (forall r, r ∈ rows -> PyStr.contains "/" (Main.path r) = true ->
             float (PyFloat.float_repr (Main.size_gb r)) = Some (Main.size_gb r)) ->
  Quota.latest_over_quota float
    (put_object st (Main.minio_path c) (Utf8.encode (Main.csv_text rows)) now)
  = Py.Ok (Some (as_read <$> Main.over_quota rows)).
Proof.
  intros Hdate Hst Hok Hfloat.
  rewrite latest_over_quota_eq, snapshots_put by done.
  set (x := Blob (Main.minio_path c) (Utf8.encode (Main.csv_text rows)) now).
  set (old := filter is_snapshot _).
  assert (Forall (fun b => datetime_ltb (modified b) (modified x) = true) old) as Hold.
  { apply Forall_forall. intros b Hb. unfold old in Hb.
    apply list_elem_of_filter in Hb as [_ Hb].
    apply list_elem_of_filter in Hb as [_ Hb].
    by apply (proj1 (Forall_forall _ _) Hst). }
  assert (match old ++ [x] with
          | [] => x
          | b0 :: bs =>
              Quota.max_key (fun a b => datetime_ltb (modified a) (modified b)) b0 bs
          end = x) as Hmax.
  { destruct old as [|b0 bs]; [done|].
    rewrite <-app_comm_cons.
    by apply (max_key_snoc (fun a b => datetime_ltb (modified a) (modified b))). }
  destruct (old ++ [x]) as [|b0 bs] eqn:E.
  { by destruct old. }
  rewrite Hmax. unfold check_object, x. cbn [blob_name].
  rewrite get_object_put.
  unfold Utf8.encode, Utf8.decode, mbind, result_bind. cbn [Py.bind].
  rewrite utf8_valid_csv_text by done. cbn [Py.bind].
  rewrite (dictreader_csv_text rows (text_ok_field_ok rows Hok)).
  by rewrite over_quota_written.
Qed.

End latest_snapshot.

(* ================================================================== *)
(** * The quota check on the sample snapshot *)

Lemma float_of_sample_rows (r : Main.row) :
  r ∈ sample_rows -> PyStr.contains "/" (Main.path r) = true ->
  float_of_rows sample_rows (PyFloat.float_repr (Main.size_gb r)) = Some (Main.size_gb r).
Proof.
  intros Hr _. revert r Hr. apply Forall_forall.
  repeat constructor; by vm_compute.
Qed.

Lemma quota_check_of_snapshot_witness :
  Forall (fun r => Forall field_ok (Main.row_fields r)) sample_rows ∧
  (forall r, r ∈ sample_rows -> PyStr.contains "/" (Main.path r) = true ->
             float_of_rows sample_rows (PyFloat.float_repr (Main.size_gb r))
             = Some (Main.size_gb r)) ∧
  ∃ dicts,
    Csv.DictReader (Main.csv_text sample_rows) = Some dicts ∧
    Quota.over_quota (float_of_rows sample_rows) dicts
    = Py.Ok (as_read <$> Main.over_quota sample_rows) ∧
    Quota.report (as_read <$> Main.over_quota sample_rows)
    = (fun line => (as_read (fst line), snd line))
      <$> Main.report (Main.over_quota sample_rows).
Proof.
  pose proof (text_ok_field_ok sample_rows sample_rows_ok) as Hok.
  split; [exact Hok|]. split; [exact float_of_sample_rows|].
  exact (quota_check_of_snapshot (float_of_rows sample_rows) sample_rows Hok
                                 float_of_sample_rows).
Defined.

Lemma quota_after_run_witness :
  let c := Main.Clock 41 "2024-03-10" "2024-03-10 06:00:41" in
  let now := Minio.Datetime 2024 3 10 6 0 41 0 in
  PyStr.contains "/" (Main.datestamp c) = false ∧
  Forall (fun b => Minio.datetime_ltb (Minio.modified b) now = true) five_snapshots ∧
  Forall (fun r => Forall text_ok (Main.row_fields r)) sample_rows ∧
  (forall r, r ∈ sample_rows -> PyStr.contains "/" (Main.path r) = true ->
             float_of_rows sample_rows (PyFloat.float_repr (Main.size_gb r))
             = Some (Main.size_gb r)) ∧
  Quota.latest_over_quota (float_of_rows sample_rows)
    (Minio.put_object five_snapshots (Main.minio_path c)
                      (Utf8.encode (Main.csv_text sample_rows)) now)
  = Py.Ok (Some (as_read <$> Main.over_quota sample_rows)).
Proof.
  intros c now.
  assert (PyStr.contains "/" (Main.datestamp c) = false) as Hdate by reflexivity.
  assert (Forall (fun b => Minio.datetime_ltb (Minio.modified b) now = true)
                 five_snapshots) as Hst by (repeat constructor).
  split; [exact Hdate|]. split; [exact Hst|]. split; [exact sample_rows_ok|].
  split; [exact float_of_sample_rows|].
  exact (quota_after_run (float_of_rows sample_rows) five_snapshots c sample_rows now
                         Hdate Hst sample_rows_ok float_of_sample_rows).
Defined.

(** The sample snapshot has one violation. *)
Example sample_over_quota :
  Main.path <$> sample_rows
  = ["cdm-lake"; "empty"; String "c" (String "d" (String "m" (String "-" (String "l"
       (String "a" (String "k" (String "e" (String "/" (String Csv.quotechar "q/z")))))))));
     "cdm-lake/raw/2023"; "cdm-lake/raw/2024"; "cdm-lake/readme.txt"] ∧
  Main.v_path <$> Main.over_quota sample_rows = ["cdm-lake/raw/2023"].
Proof. split; by vm_compute. Qed.

(* ================================================================== *)
(** * Texts the reader never rejects *)

Section reader_total.
Import Csv.

Lemma add_char_some (r : Reader) (c : ascii) :
  Z.of_nat (String.length (field r)) < field_limit ->
  parse_add_char r c = Some (MkReader (state r) (fields r) (field r +:+ String c "")).
Proof.
  intros Hlen. unfold parse_add_char.
  by rewrite (proj2 (Z.leb_gt _ _)) by lia.
Qed.

(** A character that is not a carriage return is accepted outside the
    state that follows a line end, as long as the field has room. *)
Lemma process_char_some (r : Reader) (c : ascii) :
  state r ≠ EAT_CRNL ->
  Ascii.eqb c CR = false ->
  Z.of_nat (String.length (field r)) < field_limit ->
  ∃ r', parse_process_char r (Some c) = Some r' ∧
        (String.length (field r') <= S (String.length (field r)))%nat ∧
        (state r' = EAT_CRNL -> Ascii.eqb c LF = true).
Proof.
  intros Hstate Hcr Hlen. unfold parse_process_char, is_newline.
  rewrite Hcr, !orb_false_r.
  destruct (state r) eqn:Est; [..|done];
    destruct (Ascii.eqb c LF) eqn:Elf;
    destruct (Ascii.eqb c quotechar) eqn:Eq;
    destruct (Ascii.eqb c delimiter) eqn:Ed;
    rewrite ?add_char_some by (unfold set_state; cbn [field]; lia);
    eexists; (split; [reflexivity|]);
    unfold set_state, parse_save_field; cbn [field state];
    rewrite ?length_app_s; cbn [String.length];
    (split; [lia|]); try done; try by rewrite Est.
Qed.

Lemma end_of_line_some (r : Reader) (rows : list (list string)) :
  ∃ r' rows', end_of_line r rows = Some (r', rows') ∧
              state r' ≠ EAT_CRNL ∧
              (String.length (field r') <= String.length (field r))%nat.
Proof.
  unfold end_of_line, parse_process_char.
  destruct (state r) eqn:Est;
    unfold set_state, parse_save_field; cbn [state field fields];
    rewrite ?Est; do 2 eexists; (split; [reflexivity|]);
    cbn [parse_reset state field String.length]; (split; [by rewrite ?Est|lia]).
Qed.

Lemma read_some (text : string) :
  forall (r : Reader) (rows : list (list string)) (partial : bool),
    state r ≠ EAT_CRNL ->
    PyStr.contains CR text = false ->
    Z.of_nat (String.length (field r) + String.length text) <= field_limit ->
    is_Some (read text r rows partial).
Proof.
  induction text as [|c text IH]; intros r rows partial Hstate Hcr Hlen.
  - cbn [read]. destruct partial; [|done].
    by destruct (end_of_line_some r rows) as (r' & rows' & -> & _).
  - cbn [PyStr.contains] in Hcr. apply orb_false_iff in Hcr as [Hc Hcr].
    cbn [String.length] in Hlen. cbn [read].
    destruct (process_char_some r c Hstate Hc) as (r' & -> & Hfield & Heat); [lia|].
    destruct (Ascii.eqb c LF) eqn:Elf.
    + destruct (end_of_line_some r' rows) as (r'' & rows' & -> & Hstate' & Hfield').
      apply IH; [done|done|lia].
    + apply IH; [|done|lia].
      intros Hr'. specialize (Heat Hr'). congruence.
Qed.

(** X11. The reader rejects no text that has no carriage return and is
    not longer, in bytes of UTF-8, than the field limit: a stored
    object with such a content, well-formed UTF-8, is always served as
    rows, whatever its quoting. *)
Theorem small_text_is_parsed (st : Minio.store) (file text : string) :
  file ≠ "" ->
  Minio.get_object st file = Py.Ok text ->
  Utf8.valid text = true ->
  PyStr.contains CR text = false ->
  Z.of_nat (String.length text) <= field_limit ->
  ∃ recs rows, reader text = Some recs ∧ App.get_csv st file = App.Json rows.
Proof.
  intros Hfile Hget Hvalid Hcr Hlen.
  destruct (read_some text parse_reset [] false) as [recs Hrecs]; [done|done|done|].
  fold (reader text) in Hrecs.
  assert (is_Some (DictReader text)) as [rows Hrows].
  { unfold DictReader. rewrite Hrecs. by destruct recs. }
  exists recs, rows. split; [done|].
  unfold App.get_csv, App.read_csv_from_minio.
  destruct (String.eqb_spec file "") as [|_]; [done|].
  rewrite Hget. unfold mbind, result_bind, Utf8.decode. cbn [Py.bind].
  rewrite Hvalid. cbn [Py.bind]. by rewrite Hrows.
Qed.

Lemma small_text_is_parsed_witness :
  "metrics/2024-03-05_38s.csv" ≠ "" ∧
  Minio.get_object five_snapshots "metrics/2024-03-05_38s.csv" = Py.Ok "path" ∧
  Utf8.valid "path" = true ∧
  PyStr.contains CR "path" = false ∧
  Z.of_nat (String.length "path") <= field_limit ∧
  ∃ recs rows,
    reader "path" = Some recs ∧
    App.get_csv five_snapshots "metrics/2024-03-05_38s.csv" = App.Json rows.
Proof.
  assert ("metrics/2024-03-05_38s.csv" ≠ "") as H1 by done.
  assert (Minio.get_object five_snapshots "metrics/2024-03-05_38s.csv" = Py.Ok "path")
    as H2 by reflexivity.
  assert (Utf8.valid "path" = true) as H3 by reflexivity.
  assert (PyStr.contains CR "path" = false) as H4 by reflexivity.
  assert (Z.of_nat (String.length "path") <= field_limit) as H5 by (by vm_compute).
  split; [exact H1|]. split; [exact H2|]. split; [exact H3|]. split; [exact H4|].
  split; [exact H5|].
  exact (small_text_is_parsed five_snapshots _ "path" H1 H2 H3 H4 H5).
Defined.

End reader_total.

(* ================================================================== *)
(** * A completed run seen through the viewer *)

Section run_to_viewer.
Import Minio Main.

(** X12. A run that completes has put one object into the bucket; that
    object is a snapshot for the viewer, and the viewer serves it as the
    dicts of the rows the run computed (their fields being well-formed
    UTF-8 within the field limit, the date having no slash). *)
Theorem completed_run_is_served (w : env) (l : listings) (c : clock) (st : store)
    (now : datetime) :
  snd (run w l c) = Py.Ok tt ->
  Forall (fun r => Forall text_ok (row_fields r)) (run_rows l) ->
  PyStr.contains "/" (datestamp c) = false ->
  ∃ name bytes,
    PutObject bucket_name name bytes (Z.of_nat (String.length bytes)) "text/csv"
      ∈ fst (run w l c) ∧
    is_snapshot (Blob name bytes now) ∧
    App.get_csv (put_object st name bytes now) name = App.Json (row_dict <$> run_rows l).
Proof.
  intros Hdone Hok Hdate.
  exists (minio_path c), (Utf8.encode (csv_text (run_rows l))).
  rewrite run_cases in *.
  destruct (local_write w); [done|]. destruct (put w); [done|].
  split; [|split].
  - cbn [fst]. apply list_elem_of_further, list_elem_of_here.
  - by apply minio_path_is_snapshot.
  - unfold App.get_csv, App.read_csv_from_minio.
    assert (String.eqb (minio_path c) "" = false) as -> by reflexivity.
    rewrite get_object_put.
    unfold Utf8.encode, Utf8.decode, mbind, result_bind. cbn [Py.bind].
    rewrite utf8_valid_csv_text by done. cbn [Py.bind].
    by rewrite (dictreader_csv_text _ (text_ok_field_ok _ Hok)).
Qed.

Lemma completed_run_is_served_witness :
  let w := Env None None (Some "channel_not_found") in
  let l := Listings [("cdm-lake", sample_objects); ("empty", [])]
                    sample_objects sample_objects in
  let c := Clock 41 "2024-03-10" "2024-03-10 06:00:41" in
  let now := Datetime 2024 3 10 6 0 41 0 in
  snd (run w l c) = Py.Ok tt ∧
  Forall (fun r => Forall text_ok (row_fields r)) (run_rows l) ∧
  PyStr.contains "/" (datestamp c) = false ∧
  ∃ name bytes,
    PutObject bucket_name name bytes (Z.of_nat (String.length bytes)) "text/csv"
      ∈ fst (run w l c) ∧
    is_snapshot (Blob name bytes now) ∧
    App.get_csv (put_object five_snapshots name bytes now) name
    = App.Json (row_dict <$> run_rows l).
Proof.
  intros w l c now.
  assert (snd (run w l c) = Py.Ok tt) as Hdone by (by rewrite run_cases).
  assert (PyStr.contains "/" (datestamp c) = false) as Hdate by reflexivity.
  split; [exact Hdone|]. split; [exact sample_rows_ok|]. split; [exact Hdate|].
  exact (completed_run_is_served w l c five_snapshots now Hdone sample_rows_ok Hdate).
Defined.

End run_to_viewer.
